(* ===== verification/_CoqProject ===== *)
-Q . S2P
Prelude.v
PyStr.v
SilenceDetect.v
World.v
Media.v
Trim.v
Split.v
Client.v
Script.v
