(* ===== verification/Prelude.v ===== *)
(** * Verification of src/transcribe.py (lecture transcription script)

    ** The program
    One Python script of five functions and a module-level driver.
    - SilenceTrimmer: [detect_voice_start] runs ffmpeg's silencedetect
      filter and scans its standard error with the regular expression
      [silence_end:\s*([\d\.]+)]; [trim_silence] re-encodes the input from
      that time ([-ss]) or returns the input path when nothing is found.
    - Chunker: [get_file_size] (bytes / 2^20) against the 25 MB limit, and
      [split_audio], which runs ffmpeg's segment muxer with the pattern
      [audio_parts/part_%03d.mp3] and returns the sorted [.mp3] entries of
      the folder.
    - TranscriptionClient: [transcribe_audio] posts one file to the Whisper
      endpoint, calls [raise_for_status] and returns [json()["text"]].
    - Driver (lines 87-109): trim, size test, split and transcribe every
      part in order joining with newlines (or transcribe the whole file),
      then write [output/lecture.txt].
    The parts interact only through paths on the filesystem, the ffmpeg
    processes they start and the HTTP endpoint.

    ** Files
    - [Prelude]: this header; the state/exception monad [SE] (stdpp
      [MRet]/[MBind] instances), [runs_all], the Python append loop
      [for_append] and its equivalence with [mapM]; the hint databases
      [py]/[py_rw] and the tactics [se_unfold], [step_bind], [inv_ok].
    - [PyStr]: Python/C string operations: [py_join] ([str.join]),
      [py_split], [py_endswith], [path_join] ([os.path.join]), [py_str_nat]
      ([str(int)], a digit loop with fuel), [fmt03] (["%03d"]), and
      [py_sorted] ([sorted] on [str], stdpp's merge sort, with a [Proper]
      instance for permutations).
    - [SilenceDetect]: Module [Regex] (a backtracking matcher with
      [re.search]'s leftmost-first greedy semantics on the fragment of
      [re] syntax line 30 uses) and Module [Scan] (a direct scanner);
      [silence_end_of_log] models lines 30-33.
    - [World]: the world ([world]: a filesystem of files and directories,
      and a log of the external events: processes run, requests posted,
      lines printed, files opened for writing), Python's exceptions, the
      class [Env] of the two external collaborators (running a command
      line; answering an HTTP request), and the library calls
      ([subprocess.run], [os.makedirs], [os.listdir], [open], ...).  The
      invariant [log_grows P c] (the log only grows, by events satisfying
      [P]) is proved compositionally for every operation (tactic [grow]).
    - [Media]: one concrete, executable [Env] (ffmpeg and the endpoint as
      the spec describes them), used for witnesses and findings only.
    - [Trim], [Split], [Client], [Script]: the four components, each a
      Section over an arbitrary [Env]; definitions keep the source names.

    ** What is proved
    - Driver (Script): C1 a successful run writes exactly the newline join
      of the answers' texts, in request order, and uploads the recording
      or the trimmed recording alone or [.mp3] files of [audio_parts];
      C2 an HTTP, network or ffmpeg error stops the run before the output
      is opened; C9 the split branch is taken exactly above 26214400
      bytes; C10 the part loop raises the exception of the first failing
      part, after transcribing every earlier part in order, and ends in
      the world that failing call left, so no later part is posted; C11
      every request goes to the transcription URL with the configured key
      (the key is sent nowhere else); C12 lines 105-109 on every branch
      ([FileNotFoundError] cannot occur).
    - SilenceTrimmer: C3 declarative characterisation of the marker
      (leftmost occurrence, longest number), C4 when no marker is found;
      C5 [trim_silence] on every branch.  Both are proved through the
      lemma that the backtracking matcher agrees with the scanner.
    - Chunker: C6 [split_audio] returns the segments in chronological
      order when the folder holds no other [.mp3]; C7 name order equals
      segment order exactly up to 1000 segments.
    - Client: C8 the status range that raises.
    - Strings (lemmas the claims use or the findings cite): the
      newline join/split round trip, its failure on a fragment with a
      newline, [str(n)] as the canonical decimal form, enough fuel.
    Findings are shown on concrete runs in the environment of [Media]:
    stale parts are transcribed ([Split.split_audio_stale_part]), a rerun
    fails because the trim command lacks [-y]
    ([Script.script_rerun_fails]), the first silence anywhere is cut
    ([Script.script_cuts_opening_speech]), a non-string transcript
    truncates the output ([Script.script_type_error_truncates]), the marker
    need not be a number ([SilenceDetect.silence_end_not_a_number]).

    ** Bounds and choices
    Strings are sequences of code points below U+0100.  The size test uses
    exact rationals; Python's double division by 2^20 gives the same
    comparison (exact below 2^53 bytes, monotone above).  [str(n)] runs a
    digit loop with fuel [n + 1], which [PyStr.py_str_nat_fuel] shows
    is enough.  Sizes and
    times are unbounded integers: the script does no fixed-width
    arithmetic.

    ** Not modelled
    The [config] module (the API key is a section variable), audio codecs
    and ffmpeg itself (an [Env] parameter; [Media] is one instance), the
    HTTP client and JSON parsing (a response carries its parsed body),
    terminal output encoding (prints are logged as message values).
    [Env]'s command runner is total: the [OSError] raised when [ffmpeg]
    cannot be started and a [UnicodeDecodeError] from [text=True] on
    line 27 are outside the model, an assumption on the environment. *)

From stdpp Require Import base list gmap strings sorting.
From Stdlib Require Import ZArith.

(** ** Outcomes and the state/exception monad

    Python code either returns a value or raises an exception; every
    statement may also change the world.  [SE S E A] is a computation over a
    state [S] that returns an [A] or raises an [E]; the state reached when
    an exception is raised is kept, since the effects performed before a
    [raise] are not undone in Python. *)

Inductive outcome (E A : Type) : Type :=
  | Ok (a : A)
  | Raise (e : E).
Arguments Ok {E A} a.
Arguments Raise {E A} e.

Definition SE (S E A : Type) : Type := S -> outcome E A * S.

#[export] Instance SE_ret {S E} : MRet (SE S E) := fun A a s => (Ok a, s).
#[export] Instance SE_bind {S E} : MBind (SE S E) := fun A B f c s =>
  match c s with
  | (Ok a, s') => f a s'
  | (Raise e, s') => (Raise e, s')
  end.

Definition raise {S E A} (e : E) : SE S E A := fun s => (Raise e, s).
Definition get_state {S E} : SE S E S := fun s => (Ok s, s).
Definition modify {S E} (f : S -> S) : SE S E unit := fun s => (Ok tt, f s).

(** The [for] loop that appends each result to an accumulator list, the
    shape of [for part in parts: ...; transcriptions.append(...)]. *)
Fixpoint for_append {S E A B} (f : A -> SE S E B) (xs : list A) (acc : list B)
    : SE S E (list B) :=
  match xs with
  | [] => mret acc
  | x :: xs' => y ← f x; for_append f xs' (acc ++ [y])
  end.

(** Running a list of computations in order: [runs_all f xs s ys s'] says
    that [f] succeeds on every element of [xs], starting from [s], with
    results [ys], and ends in [s']. *)
Inductive runs_all {S E A B} (f : A -> SE S E B) : list A -> S -> list B -> S -> Prop :=
  | runs_nil s : runs_all f [] s [] s
  | runs_cons x xs y ys s s1 s2 :
      f x s = (Ok y, s1) -> runs_all f xs s1 ys s2 -> runs_all f (x :: xs) s (y :: ys) s2.

Create HintDb py.
Create Rewrite HintDb py_rw.

Section MonadLemmas.
Context {S E : Type}.

Lemma ret_run {A} (a : A) (s : S) : (mret a : SE S E A) s = (Ok a, s).
Proof. reflexivity. Qed.

Lemma raise_run {A} (e : E) (s : S) : (raise e : SE S E A) s = (Raise e, s).
Proof. reflexivity. Qed.

Lemma bind_ok {A B} (c : SE S E A) (f : A -> SE S E B) s a s' :
  c s = (Ok a, s') -> (c ≫= f) s = f a s'.
Proof. intros H. cbv [mbind SE_bind]. by rewrite H. Qed.

Lemma bind_raise {A B} (c : SE S E A) (f : A -> SE S E B) s e s' :
  c s = (Raise e, s') -> (c ≫= f) s = (Raise e, s').
Proof. intros H. cbv [mbind SE_bind]. by rewrite H. Qed.

Lemma bind_inv {A B} (c : SE S E A) (f : A -> SE S E B) s r s'' :
  (c ≫= f) s = (r, s'') ->
  (exists a s', c s = (Ok a, s') /\ f a s' = (r, s'')) \/
  (exists e, c s = (Raise e, s'') /\ r = Raise e).
Proof.
  cbv [mbind SE_bind]. destruct (c s) as [[a|e] s']; intros H.
  - left. eauto.
  - right. injection H as <- <-. eauto.
Qed.

Lemma mapM_cons_run {A B} (f : A -> SE S E B) x xs s :
  mapM f (x :: xs) s = (y ← f x; ys ← mapM f xs; mret (y :: ys)) s.
Proof. reflexivity. Qed.

(** [mapM] succeeds exactly when every call succeeds in turn. *)
Lemma mapM_ok_iff {A B} (f : A -> SE S E B) xs s ys s' :
  mapM f xs s = (Ok ys, s') <-> runs_all f xs s ys s'.
Proof.
  revert s ys. induction xs as [|x xs IH]; intros s ys; simpl.
  - split; [intros H; injection H as <- <-; constructor|].
    intros H; inversion H; subst; reflexivity.
  - cbv [mbind SE_bind] in *. split.
    + destruct (f x s) as [[y|e] s1] eqn:Hf; [|discriminate].
      destruct (mapM f xs s1) as [[ys1|e] s2] eqn:Hm; [|discriminate].
      intros H; injection H as <- <-. econstructor; [exact Hf|]. by apply IH.
    + intros H; inversion H as [|? ? y ys1 ? s1 ? Hf Hr]; subst.
      rewrite Hf. apply IH in Hr. cbv [mbind SE_bind] in Hr. by rewrite Hr.
Qed.

(** [mapM] fails exactly when some call fails after all the calls before
    it succeeded; nothing after the failing call is run. *)
Lemma mapM_raise_iff {A B} (f : A -> SE S E B) xs s e s' :
  mapM f xs s = (Raise e, s') <->
  exists pre x post ys s1,
    xs = pre ++ x :: post /\ runs_all f pre s ys s1 /\ f x s1 = (Raise e, s').
Proof.
  revert s. induction xs as [|x xs IH]; intros s; simpl.
  - split; [discriminate|]. intros (pre & ? & ? & ? & ? & Hxs & _). by destruct pre.
  - cbv [mbind SE_bind] in *. split.
    + destruct (f x s) as [[y|e'] s1] eqn:Hf.
      * destruct (mapM f xs s1) as [[ys1|e'] s2] eqn:Hm; [discriminate|].
        intros H; injection H as -> ->.
        destruct (proj1 (IH s1) Hm) as (pre & x' & post & ys & s3 & -> & Hr & Hx).
        exists (x :: pre), x', post, (y :: ys), s3. simpl. eauto using runs_cons.
      * intros H; injection H as -> ->. exists [], x, xs, [], s. eauto using runs_nil.
    + intros (pre & x' & post & ys & s1 & Hxs & Hr & Hx).
      destruct pre as [|p pre]; simpl in Hxs; injection Hxs as <- ->.
      * inversion Hr; subst. by rewrite Hx.
      * inversion Hr as [|? ? y ys1 ? s2 ? Hf Hr']; subst. rewrite Hf.
        assert (Hm : mapM f (pre ++ x' :: post) s2 = (Raise e, s')).
        { apply IH. eauto 10. }
        cbv [mbind SE_bind] in Hm. by rewrite Hm.
Qed.

(** The append loop computes what [mapM] computes, in the same order. *)
Lemma for_append_mapM {A B} (f : A -> SE S E B) xs acc s :
  for_append f xs acc s = (ys ← mapM f xs; mret (acc ++ ys)) s.
Proof.
  revert acc s. induction xs as [|x xs IH]; intros acc s; simpl;
    cbv [mbind SE_bind mret SE_ret] in *.
  - by rewrite app_nil_r.
  - destruct (f x s) as [[y|e] s1]; [|done].
    rewrite IH. destruct (mapM f xs s1) as [[ys|e] s2]; [|done].
    by rewrite <- app_assoc.
Qed.

Lemma runs_all_length {A B} (f : A -> SE S E B) xs s ys s' :
  runs_all f xs s ys s' -> length ys = length xs.
Proof. induction 1; simpl; auto. Qed.

Lemma runs_all_app {A B} (f : A -> SE S E B) xs1 xs2 s ys s' :
  runs_all f (xs1 ++ xs2) s ys s' ->
  exists ys1 ys2 s1, ys = ys1 ++ ys2 /\ runs_all f xs1 s ys1 s1 /\ runs_all f xs2 s1 ys2 s'.
Proof.
  revert s ys. induction xs1 as [|x xs1 IH]; intros s ys H; simpl in H.
  - exists [], ys, s. eauto using runs_nil.
  - inversion H as [|? ? y ys1 ? s1 ? Hf Hr]; subst.
    destruct (IH _ _ Hr) as (ys1' & ys2 & s2 & -> & H1 & H2).
    exists (y :: ys1'), ys2, s2. eauto using runs_cons.
Qed.

End MonadLemmas.

#[export] Hint Resolve runs_nil runs_cons : py.
#[export] Hint Rewrite @ret_run @raise_run @mapM_cons_run : py_rw.

(** ** Generic list lemmas *)

Lemma StronglySorted_fmap_seq {A} (R : relation A) (f : nat -> A) a n :
  (forall i j, a <= i -> i < j -> j < a + n -> R (f i) (f j)) ->
  StronglySorted R (f <$> seq a n).
Proof.
  revert a. induction n as [|n IH]; intros a Hr; simpl; constructor.
  - apply IH. intros i j ???. apply Hr; lia.
  - apply Forall_forall. intros x (j & -> & Hj%elem_of_seq)%list_elem_of_fmap.
    apply Hr; lia.
Qed.

(** Peel binds whose first computation is known by a hypothesis. *)
Ltac step_bind :=
  first
    [ match goal with H : ?c ?s = (Ok _, _) |- context [(?c ≫= _) ?s] =>
        rewrite (bind_ok _ _ _ _ _ H) end
    | match goal with H : ?c ?s = (Raise _, _) |- context [(?c ≫= _) ?s] =>
        rewrite (bind_raise _ _ _ _ _ H) end ].

(** Unfold the monad's operations to expose the state passing. *)
Ltac se_unfold := cbv [mbind SE_bind mret SE_ret raise modify get_state] in *.

(** Invert a successful bind [H : (c ≫= f) s = (Ok _, _)] into its two
    successful halves. *)
Tactic Notation "inv_ok" hyp(H) ident(a) ident(s1) ident(H1) ident(H2) :=
  destruct (bind_inv _ _ _ _ _ H) as [(a & s1 & H1 & H2) | (? & ? & ?)];
  [clear H | discriminate].
