(* ===== verification/PyStr.v ===== *)
(** * The Python and C string operations the script relies on

    [str.join], [str.split] on one character, [str.endswith],
    [os.path.join] (posixpath), [str(int)], the C conversion ["%03d"] that
    ffmpeg applies to the segment pattern, and [sorted] on a list of [str]
    (Python compares [str] by code points, lexicographically).  Strings are
    Rocq [string]s, sequences of 8-bit characters: the file names, regular
    expression and ffmpeg output handled by the script are ASCII. *)

From Stdlib Require Import Ascii String.
From stdpp Require Import base list gmap strings sorting.
From S2P Require Import Prelude.

(** ** Strings as lists of characters *)

Lemma las_app (a b : string) :
  list_ascii_of_string (a +:+ b) = list_ascii_of_string a ++ list_ascii_of_string b.
Proof. induction a as [|c a IH]; simpl; [done|]. by rewrite IH. Qed.

Lemma sla_app (a b : list ascii) :
  string_of_list_ascii (a ++ b) = string_of_list_ascii a +:+ string_of_list_ascii b.
Proof. induction a as [|c a IH]; simpl; [done|]. by rewrite IH. Qed.

Lemma las_inj (a b : string) : list_ascii_of_string a = list_ascii_of_string b -> a = b.
Proof.
  intros H. by rewrite <- (string_of_list_ascii_of_string a), H, string_of_list_ascii_of_string.
Qed.

Lemma str_app_assoc (a b c : string) : a +:+ (b +:+ c) = (a +:+ b) +:+ c.
Proof. apply las_inj. rewrite !las_app. apply app_assoc. Qed.

Lemma str_app_nil_r (a : string) : a +:+ "" = a.
Proof. apply las_inj. rewrite las_app. apply app_nil_r. Qed.

Lemma str_app_cons c (a b : string) : String c a +:+ b = String c (a +:+ b).
Proof. reflexivity. Qed.

#[export] Hint Rewrite las_app sla_app : py_rw.

(** ** [sep.join(xs)] and [s.split(c)] *)

Fixpoint py_join (sep : string) (xs : list string) : string :=
  match xs with
  | [] => ""
  | [x] => x
  | x :: xs' => x +:+ sep +:+ py_join sep xs'
  end.

(** [s.split(c)] for a one-character separator [c], on lists of
    characters: the pieces between the occurrences of [c]. *)
Fixpoint split_chars (c : ascii) (l : list ascii) : list (list ascii) :=
  match l with
  | [] => [[]]
  | d :: l' =>
      if decide (d = c) then [] :: split_chars c l'
      else match split_chars c l' with
           | [] => [[d]]
           | p :: ps => (d :: p) :: ps
           end
  end.

Definition py_split (c : ascii) (s : string) : list string :=
  string_of_list_ascii <$> split_chars c (list_ascii_of_string s).

Lemma split_chars_free c l : c ∉ l -> split_chars c l = [l].
Proof.
  induction l as [|d l IH]; intros Hc; simpl; [done|].
  rewrite decide_False by set_solver. rewrite IH by set_solver. done.
Qed.

Lemma split_chars_app c l r :
  c ∉ l -> split_chars c (l ++ c :: r) = l :: split_chars c r.
Proof.
  induction l as [|d l IH]; intros Hc; simpl.
  - by rewrite decide_True.
  - rewrite decide_False by set_solver. rewrite IH by set_solver. done.
Qed.

Lemma py_join_cons_cons sep x y ys : py_join sep (x :: y :: ys) = x +:+ sep +:+ py_join sep (y :: ys).
Proof. reflexivity. Qed.

(** Strip a literal prefix. *)
Fixpoint strip_prefix (w l : list ascii) : option (list ascii) :=
  match w, l with
  | [], _ => Some l
  | c :: w', d :: l' => if bool_decide (c = d) then strip_prefix w' l' else None
  | _ :: _, [] => None
  end.

Lemma strip_prefix_Some w l r : strip_prefix w l = Some r <-> l = w ++ r.
Proof.
  revert l. induction w as [|c w IH]; intros [|d l]; simpl; try (split; congruence).
  case_bool_decide; subst; rewrite ?IH; split; congruence.
Qed.

(** ** [str.endswith], [os.path.join] *)

Definition py_endswith (s suffix : string) : bool :=
  let l := list_ascii_of_string s in
  let k := list_ascii_of_string suffix in
  bool_decide (drop (length l - length k) l = k).

Lemma endswith_app (p s : string) : py_endswith (p +:+ s) s = true.
Proof.
  unfold py_endswith. rewrite las_app, bool_decide_eq_true, length_app.
  replace (length (list_ascii_of_string p) + length (list_ascii_of_string s)
           - length (list_ascii_of_string s)) with (length (list_ascii_of_string p)) by lia.
  apply drop_app_length.
Qed.

Lemma endswith_inv (s suffix : string) :
  py_endswith s suffix = true -> exists p, s = p +:+ suffix.
Proof.
  unfold py_endswith. rewrite bool_decide_eq_true. intros H.
  set (l := list_ascii_of_string s) in *.
  set (n := length l - length (list_ascii_of_string suffix)) in *.
  exists (string_of_list_ascii (take n l)).
  apply las_inj. rewrite las_app, list_ascii_of_string_of_list_ascii, <- H.
  symmetry. apply take_drop.
Qed.

(** [posixpath.join(a, b)]: an absolute [b] replaces [a]; otherwise a
    ['/'] is inserted unless [a] is empty or already ends with one. *)
Definition is_abs (b : string) : bool :=
  match b with String c _ => bool_decide (c = "/"%char) | EmptyString => false end.

Definition path_join (a b : string) : string :=
  if is_abs b then b
  else if String.eqb a "" || py_endswith a "/" then a +:+ b
  else a +:+ "/" +:+ b.

(** A relative name is appended to the directory prefix [path_join a ""]. *)
Lemma path_join_rel a b : is_abs b = false -> path_join a b = path_join a "" +:+ b.
Proof.
  intros Hb. unfold path_join. rewrite Hb. simpl.
  destruct (String.eqb a "" || py_endswith a "/").
  - by rewrite str_app_nil_r.
  - by rewrite <- str_app_assoc.
Qed.

(** ** Decimal conversion: [str(n)] and C's ["%03d"] *)

Definition digit_char (d : nat) : ascii := ascii_of_nat (48 + d).

(** The digits of [n] in front of [acc], most significant first; [fuel]
    bounds the number of digits. *)
Fixpoint dec_go (fuel n : nat) (acc : string) : string :=
  match fuel with
  | O => acc
  | S f =>
      let acc' := String (digit_char (n mod 10)) acc in
      if n <? 10 then acc' else dec_go f (n / 10) acc'
  end.

(** [str(n)] for a non-negative int: [n] has at most [n + 1] digits. *)
Definition py_str_nat (n : nat) : string := dec_go (S n) n "".

(** Left padding with ['0'] to a minimum width, as C's ["%0<w>d"] does. *)
Definition pad_zero (w : nat) (s : string) : string :=
  String.append (String.concat "" (repeat "0" (w - String.length s))) s.

Definition fmt03 (n : nat) : string := pad_zero 3 (py_str_nat n).

Lemma dec_go_step f n acc :
  10 <= n -> dec_go (S f) n acc = dec_go f (n / 10) (String (digit_char (n mod 10)) acc).
Proof. intros Hn. cbn [dec_go]. destruct (Nat.ltb_spec n 10); [lia|done]. Qed.

Lemma dec_go_last f n acc : n < 10 -> dec_go (S f) n acc = String (digit_char n) acc.
Proof.
  intros Hn. cbn [dec_go]. destruct (Nat.ltb_spec n 10); [|lia]. by rewrite Nat.mod_small.
Qed.

(** Below 1000, ["%03d"] is the three decimal digits of [n]. *)
Lemma fmt03_digits n :
  n < 1000 ->
  fmt03 n = String (digit_char (n / 100))
              (String (digit_char (n / 10 mod 10)) (String (digit_char (n mod 10)) "")).
Proof.
  intros Hn. unfold fmt03, py_str_nat.
  destruct (Nat.lt_ge_cases n 10) as [H1|H1].
  { rewrite dec_go_last by done.
    rewrite (Nat.div_small n 100), (Nat.div_small n 10), (Nat.mod_small n 10) by lia.
    reflexivity. }
  rewrite dec_go_step by done.
  assert (Hq : n / 10 < 100) by (apply Nat.Div0.div_lt_upper_bound; lia).
  assert (Hq' : 1 <= n / 10) by (apply Nat.div_le_lower_bound; lia).
  destruct (Nat.lt_ge_cases n 100) as [H2|H2].
  { replace n with (S (n - 1)) at 1 by lia.
    rewrite dec_go_last by (apply Nat.Div0.div_lt_upper_bound; lia).
    rewrite (Nat.div_small n 100), (Nat.mod_small (n / 10) 10)
      by (try apply Nat.Div0.div_lt_upper_bound; lia).
    reflexivity. }
  replace n with (S (S (n - 2))) at 1 by lia.
  rewrite dec_go_step by (apply Nat.div_le_lower_bound; lia).
  rewrite dec_go_last by (rewrite Nat.Div0.div_div; apply Nat.Div0.div_lt_upper_bound; lia).
  rewrite Nat.Div0.div_div. reflexivity.
Qed.

Lemma digit_compare a b :
  a < 10 -> b < 10 -> Ascii.compare (digit_char a) (digit_char b) = Nat.compare a b.
Proof.
  intros Ha Hb. unfold Ascii.compare, digit_char, ascii_of_nat.
  rewrite !N_ascii_embedding by lia.
  rewrite <- Nat2N.inj_compare.
  destruct (Nat.compare_spec (48 + a) (48 + b)), (Nat.compare_spec a b); done || lia.
Qed.

Lemma three_digits n :
  n < 1000 ->
  n = 100 * (n / 100) + 10 * (n / 10 mod 10) + n mod 10 /\
  n / 100 < 10 /\ n / 10 mod 10 < 10 /\ n mod 10 < 10.
Proof.
  intros Hn.
  pose proof (Nat.div_mod_eq n 10) as E1. pose proof (Nat.div_mod_eq (n / 10) 10) as E2.
  rewrite Nat.Div0.div_div in E2. change (10 * 10) with 100 in E2.
  pose proof (Nat.mod_upper_bound n 10) as B1. pose proof (Nat.mod_upper_bound (n / 10) 10) as B2.
  assert (n / 100 < 10) by (apply Nat.Div0.div_lt_upper_bound; lia).
  split; [lia|]. split; [done|]. split; [apply B2|apply B1]; lia.
Qed.

(** ** Lexicographic comparison of [str] *)

Lemma ascii_compare_refl c : Ascii.compare c c = Eq.
Proof. apply N.compare_refl. Qed.

Lemma compare_app_prefix (p a b : string) :
  String.compare (p +:+ a) (p +:+ b) = String.compare a b.
Proof.
  induction p as [|c p IH]; [done|]. rewrite !str_app_cons. cbn [String.compare].
  by rewrite ascii_compare_refl.
Qed.

Lemma compare_app_eqlen (a b s t : string) :
  String.length a = String.length b ->
  String.compare (a +:+ s) (b +:+ t) =
  match String.compare a b with Eq => String.compare s t | c => c end.
Proof.
  revert b. induction a as [|c a IH]; intros [|d b] Hl; try discriminate; [done|].
  rewrite !str_app_cons. cbn [String.compare].
  destruct (Ascii.compare c d); [apply IH; simpl in Hl; lia|done|done].
Qed.

(** Zero-padded three-digit numbers compare as the numbers do. *)
Lemma fmt03_compare i j :
  i < 1000 -> j < 1000 -> String.compare (fmt03 i) (fmt03 j) = Nat.compare i j.
Proof.
  intros Hi Hj. rewrite !fmt03_digits by done. cbn [String.compare].
  destruct (three_digits i Hi) as (Ei & Hi1 & Hi2 & Hi3).
  destruct (three_digits j Hj) as (Ej & Hj1 & Hj2 & Hj3).
  rewrite !digit_compare by done.
  revert Ei Ej Hi1 Hi2 Hi3 Hj1 Hj2 Hj3.
  generalize (i / 100) (i / 10 mod 10) (i mod 10) (j / 100) (j / 10 mod 10) (j mod 10).
  intros a1 a2 a3 b1 b2 b3 -> -> *.
  destruct (Nat.compare_spec a1 b1), (Nat.compare_spec a2 b2), (Nat.compare_spec a3 b3);
    symmetry; (apply Nat.compare_eq_iff || apply Nat.compare_lt_iff || apply Nat.compare_gt_iff); lia.
Qed.

Lemma fmt03_length i : i < 1000 -> String.length (fmt03 i) = 3.
Proof. intros Hi. by rewrite fmt03_digits. Qed.

(** ** [sorted] on a list of [str]

    Python's [sorted] is a stable sort by [<]; on strings the order is
    total and antisymmetric, so its result is the unique ordered
    permutation of its argument, which stdpp's [merge_sort] computes. *)

Definition py_sorted (xs : list string) : list string := merge_sort String.le xs.

Lemma py_sorted_perm xs : py_sorted xs ≡ₚ xs.
Proof. apply merge_sort_Permutation. Qed.

Lemma py_sorted_sorted xs : StronglySorted String.le (py_sorted xs).
Proof. apply StronglySorted_merge_sort; apply _. Qed.

Lemma py_sorted_unique xs ys :
  StronglySorted String.le ys -> ys ≡ₚ xs -> py_sorted xs = ys.
Proof.
  intros Hs Hp. apply (StronglySorted_unique String.le); [apply py_sorted_sorted|done|].
  by rewrite py_sorted_perm.
Qed.

(** The order in which the names were listed does not matter. *)
#[export] Instance py_sorted_proper : Proper ((≡ₚ) ==> (=)) py_sorted.
Proof.
  intros xs ys Hp. apply py_sorted_unique; [apply py_sorted_sorted|].
  by rewrite py_sorted_perm.
Qed.

Lemma str_lt_le a b : String.compare a b = Lt -> String.le a b.
Proof. intros H. unfold String.le, String.leb. by rewrite H. Qed.

Lemma str_le_not_gt a b : String.le a b -> String.compare a b <> Gt.
Proof. unfold String.le, String.leb. by destruct (String.compare a b). Qed.

(** ** Round trip of [sep.join] and [split] *)

(** Splitting the newline-joined fragments at the separator gives the
    fragments back, one per line, as long as there is at least one and
    none contains the separator itself. *)
Lemma py_split_join (c : ascii) (xs : list string) :
  xs <> [] -> Forall (fun x => c ∉ list_ascii_of_string x) xs ->
  py_split c (py_join (String c EmptyString) xs) = xs.
Proof.
  intros Hne Hf. unfold py_split.
  induction Hf as [|x xs Hx Hf IH]; [done|].
  destruct xs as [|y ys].
  - simpl. rewrite split_chars_free by done. simpl. by rewrite string_of_list_ascii_of_string.
  - rewrite py_join_cons_cons, !las_app. simpl. rewrite split_chars_app by done.
    rewrite fmap_cons, string_of_list_ascii_of_string. f_equal. by apply IH.
Qed.

(** The round trip fails as soon as one fragment spans two lines. *)
Example py_split_join_newline :
  py_split "010"%char (py_join (String "010"%char EmptyString) ["a"; String "010"%char "b"])
  = ["a"; ""; "b"].
Proof. reflexivity. Qed.

(** ** Enough fuel for [str(n)] *)

Lemma dec_go_fuel f1 f2 n acc : n < f1 -> n < f2 -> dec_go f1 n acc = dec_go f2 n acc.
Proof.
  revert f2 n acc. induction f1 as [|f1 IH]; intros [|f2] n acc H1 H2; try lia.
  destruct (Nat.lt_ge_cases n 10).
  - by rewrite !dec_go_last.
  - rewrite !dec_go_step by done. apply IH.
    + assert (n / 10 < n) by (apply Nat.div_lt; lia). lia.
    + assert (n / 10 < n) by (apply Nat.div_lt; lia). lia.
Qed.

(** The fuel [n + 1] given to the digit loop of [str(n)] is enough:
    more fuel never changes the digits produced. *)
Lemma py_str_nat_fuel n k : dec_go (S n + k) n "" = py_str_nat n.
Proof. apply dec_go_fuel; lia. Qed.

(** The value of decimal digits, most significant first. *)
Definition digits_value (ds : list nat) : nat := foldl (fun a d => 10 * a + d) 0 ds.

(** The canonical decimal form: no leading zero except in ["0"]. *)
Definition canonical (ds : list nat) : Prop :=
  ds = [0] \/ exists d ds', ds = d :: ds' /\ d <> 0.

Lemma digits_value_snoc ds d : digits_value (ds ++ [d]) = 10 * digits_value ds + d.
Proof. unfold digits_value. by rewrite foldl_app. Qed.

Lemma dec_go_digits f n acc :
  n < f ->
  exists ds, list_ascii_of_string (dec_go f n acc) = (digit_char <$> ds) ++ list_ascii_of_string acc /\
    Forall (fun d => d < 10) ds /\ digits_value ds = n /\ canonical ds.
Proof.
  revert n acc. induction f as [|f IH]; intros n acc Hn; [lia|].
  destruct (Nat.lt_ge_cases n 10) as [Hs|Hs].
  - rewrite dec_go_last by done. exists [n]. split_and!; [done|by apply Forall_singleton|done|].
    destruct (decide (n = 0)) as [->|]; [by left|right; eauto].
  - rewrite dec_go_step by done.
    assert (Hq : n / 10 < n) by (apply Nat.div_lt; lia).
    destruct (IH (n / 10) (String (digit_char (n mod 10)) acc)) as (ds & E & F & V & C); [lia|].
    exists (ds ++ [n mod 10]). rewrite E, fmap_app, <- app_assoc. split; [done|].
    split_and!.
    + apply Forall_app. split; [done|]. apply Forall_singleton, Nat.mod_upper_bound. lia.
    + rewrite digits_value_snoc, V. symmetry. apply Nat.div_mod_eq.
    + right. destruct C as [->|(d & ds' & -> & Hd)].
      * exfalso. change (digits_value [0]) with 0 in V. assert (1 <= n / 10) by (apply Nat.div_le_lower_bound; lia). lia.
      * by exists d, (ds' ++ [n mod 10]).
Qed.

(** [str(n)] is the canonical decimal representation of [n]: its
    characters are decimal digits, their value is [n], and there is no
    leading zero unless [n] is 0. *)
Lemma py_str_nat_digits n :
  exists ds, list_ascii_of_string (py_str_nat n) = digit_char <$> ds /\
    Forall (fun d => d < 10) ds /\ digits_value ds = n /\ canonical ds.
Proof.
  destruct (dec_go_digits (S n) n "" ltac:(lia)) as (ds & E & H).
  exists ds. unfold py_str_nat. rewrite E. simpl. by rewrite app_nil_r.
Qed.
