(* ===== verification/SilenceDetect.v ===== *)
(** * The silence marker: [re.search(r"silence_end:\s*([\d\.]+)", stderr)]

    [detect_voice_start] (src/transcribe.py, lines 17-33) runs ffmpeg's
    [silencedetect] filter and scans its diagnostic output with one regular
    expression.  This file models that scan twice:

    - [Regex]: a backtracking matcher for the fragment of Python's [re]
      syntax the pattern uses (literal characters, the classes [\s] and
      [[\d\.]], greedy [*] and [+] on a class, concatenation, one capturing
      group) with [re.search]'s leftmost-first, greedy semantics, applied
      to the pattern of line 30;
    - [Scan]: a direct scanner (find the literal, skip blanks, take the
      longest run of digits and dots);

    proves that they agree on every log, and characterises the result
    declaratively (leftmost occurrence, longest number).  Characters are
    code points U+0000..U+00FF; [\s] and [\d] are Python's Unicode classes
    restricted to that range. *)

From Stdlib Require Import Ascii String.
From stdpp Require Import base list strings.
From S2P Require Import Prelude PyStr.

(** ** Character classes *)

(** [\s] on [str]: [str.isspace()] below U+0100. *)
Definition py_isspace (c : ascii) : bool :=
  match nat_of_ascii c with
  | 9 | 10 | 11 | 12 | 13 | 28 | 29 | 30 | 31 | 32 | 133 | 160 => true
  | _ => false
  end.

(** [\d] on [str]: decimal digits below U+0100 are ['0'..'9']. *)
Definition py_isdigit (c : ascii) : bool :=
  (48 <=? nat_of_ascii c) && (nat_of_ascii c <=? 57).

(** The class [[\d\.]]. *)
Definition is_num (c : ascii) : bool := py_isdigit c || bool_decide (c = ".")%char.

Lemma space_not_num c : py_isspace c = true -> is_num c = false.
Proof.
  unfold py_isspace, is_num, py_isdigit. intros Hs.
  destruct (bool_decide_reflect (c = "."%char)) as [->|Hne]; [discriminate|].
  rewrite orb_false_r. destruct (nat_of_ascii c) as [|n] eqn:E; [discriminate|].
  repeat (destruct n as [|n]; try discriminate Hs; try reflexivity).
Qed.

(** ** Prefix scans shared by both models *)

Fixpoint take_while (p : ascii -> bool) (l : list ascii) : list ascii :=
  match l with
  | c :: l' => if p c then c :: take_while p l' else []
  | [] => []
  end.

Fixpoint drop_while (p : ascii -> bool) (l : list ascii) : list ascii :=
  match l with
  | c :: l' => if p c then drop_while p l' else l
  | [] => []
  end.

Lemma take_drop_while p l : take_while p l ++ drop_while p l = l.
Proof. induction l as [|c l IH]; simpl; [done|]. destruct (p c); simpl; by rewrite ?IH. Qed.

Lemma take_while_all p l : Forall (fun c => p c = true) (take_while p l).
Proof. induction l as [|c l IH]; simpl; [done|]. destruct (p c) eqn:E; auto. Qed.

Lemma drop_while_head p l c l' : drop_while p l = c :: l' -> p c = false.
Proof.
  induction l as [|d l IH]; simpl; [discriminate|].
  destruct (p d) eqn:E; [done|]. by intros [= -> ->].
Qed.

Module Regex.

(** The regular-expression syntax used on line 30; [RGroup] is capturing
    group 1 (the pattern has exactly one group). *)
Inductive re : Type :=
  | REps
  | RChar (c : ascii)
  | RClass (p : ascii -> bool)
  | RStar (p : ascii -> bool)
  | RPlus (p : ascii -> bool)
  | RSeq (r1 r2 : re)
  | RGroup (r : re).

Section Match.
Context {R : Type}.

(** Greedy repetition of a class with backtracking: try one more
    character first, and the continuation here only if that fails. *)
Fixpoint star_go (p : ascii -> bool) (s : list ascii) (k : list ascii -> option R)
    : option R :=
  match s with
  | c :: s' =>
      if p c then match star_go p s' k with Some r => Some r | None => k s end
      else k s
  | [] => k []
  end.

(** [mat r s g k] matches [r] at the start of [s] with the current group
    [g], and passes the rest of the input and the group to [k]; the first
    success in priority order is returned, as sre's backtracking does. *)
Fixpoint mat (r : re) (s : list ascii) (g : option (list ascii))
    (k : list ascii -> option (list ascii) -> option R) : option R :=
  match r with
  | REps => k s g
  | RChar c => match s with d :: s' => if bool_decide (d = c) then k s' g else None | [] => None end
  | RClass p => match s with d :: s' => if p d then k s' g else None | [] => None end
  | RStar p => star_go p s (fun s' => k s' g)
  | RPlus p =>
      match s with
      | d :: s' => if p d then star_go p s' (fun s'' => k s'' g) else None
      | [] => None
      end
  | RSeq r1 r2 => mat r1 s g (fun s' g' => mat r2 s' g' k)
  | RGroup r1 => mat r1 s g (fun s' _ => k s' (Some (take (length s - length s') s)))
  end.

End Match.

(** [re.search]: the match at the leftmost position that has one;
    [Some g] is the match object, [g] its group 1. *)
Fixpoint search (r : re) (s : list ascii) : option (option (list ascii)) :=
  match mat r s None (fun _ g => Some g) with
  | Some g => Some g
  | None => match s with [] => None | _ :: s' => search r s' end
  end.

(** A literal string as a sequence of [RChar], followed by [r]. *)
Fixpoint re_lit (w : list ascii) (r : re) : re :=
  match w with
  | [] => r
  | c :: w' => RSeq (RChar c) (re_lit w' r)
  end.

Definition silence_lit : list ascii := list_ascii_of_string "silence_end:".

(** [r"silence_end:\s*([\d\.]+)"] *)
Definition silence_re : re :=
  re_lit silence_lit (RSeq (RStar py_isspace) (RGroup (RPlus is_num))).

End Regex.

Module Scan.

(** The marker at the start of [s]: the literal, then blanks, then the
    longest non-empty run of digits and dots. *)
Definition match_here (s : list ascii) : option (list ascii) :=
  match strip_prefix Regex.silence_lit s with
  | Some rest =>
      match take_while is_num (drop_while py_isspace rest) with
      | [] => None
      | g => Some g
      end
  | None => None
  end.

(** The marker at the leftmost position that has one. *)
Fixpoint scan (s : list ascii) : option (list ascii) :=
  match match_here s with
  | Some g => Some g
  | None => match s with [] => None | _ :: s' => scan s' end
  end.

End Scan.

(** Lines 30-33: [match.group(1)] if the pattern occurs, [None] otherwise. *)
Definition silence_end_of_log (stderr : string) : option string :=
  match Regex.search Regex.silence_re (list_ascii_of_string stderr) with
  | Some (Some g) => Some (string_of_list_ascii g)
  | _ => None
  end.

(** ** The backtracking matcher agrees with the scanner *)

Section Agree.
Import Regex.

Lemma star_go_longest {R} p s (k : list ascii -> option R) :
  k (drop_while p s) <> None -> star_go p s k = k (drop_while p s).
Proof.
  induction s as [|c s IH]; intros Hk; simpl in *; [done|].
  destruct (p c); [|done]. rewrite IH by done. by destruct (k (drop_while p s)).
Qed.

(** When the continuation can only succeed on a character outside the
    class, backtracking into the repetition never helps. *)
Lemma star_go_disjoint {R} p s (k : list ascii -> option R) :
  (forall t, k t <> None -> exists c t', t = c :: t' /\ p c = false) ->
  star_go p s k = k (drop_while p s).
Proof.
  intros Hk. induction s as [|c s IH]; simpl; [done|].
  destruct (p c) eqn:Hp; [|done]. rewrite IH.
  destruct (k (drop_while p s)) as [r|]; [done|].
  destruct (k (c :: s)) eqn:E; [|done].
  destruct (Hk (c :: s)) as (? & ? & [= <- <-] & Hc); congruence.
Qed.

Lemma mat_re_lit {R} w r s g (k : list ascii -> option (list ascii) -> option R) :
  mat (re_lit w r) s g k =
  match strip_prefix w s with Some s' => mat r s' g k | None => None end.
Proof.
  revert s. induction w as [|c w IH]; intros [|d s]; simpl; try done.
  rewrite (bool_decide_ext (d = c) (c = d)) by done. by case_bool_decide.
Qed.

Lemma take_len_drop_while p l :
  take (length l - length (drop_while p l)) l = take_while p l.
Proof.
  transitivity (take (length (take_while p l ++ drop_while p l) - length (drop_while p l))
                     (take_while p l ++ drop_while p l)); [by rewrite take_drop_while|].
  rewrite length_app, Nat.add_sub. apply take_app_length.
Qed.

Lemma mat_silence_re s :
  mat silence_re s None (fun _ g => Some g) = Some <$> Scan.match_here s.
Proof.
  unfold silence_re, Scan.match_here. rewrite mat_re_lit.
  destruct (strip_prefix silence_lit s) as [rest|]; [|done]. simpl.
  rewrite star_go_disjoint.
  - destruct (drop_while py_isspace rest) as [|d u] eqn:Hu; [done|]. simpl.
    destruct (is_num d) eqn:Hd; [|done].
    rewrite star_go_longest by done. simpl. f_equal. f_equal.
    replace (S (length u) - length (drop_while is_num u)) with
      (S (length u - length (drop_while is_num u))).
    + simpl. by rewrite take_len_drop_while.
    + assert (length (drop_while is_num u) <= length u); [|lia].
      rewrite <- (take_drop_while is_num u) at 2. rewrite length_app. lia.
  - intros [|d t] Ht; [done|]. simpl in Ht. exists d, t. split; [done|].
    destruct (is_num d) eqn:Hd; [|done].
    destruct (py_isspace d) eqn:Hs; [|done]. by rewrite space_not_num in Hd.
Qed.

(** The matcher and the scanner find the same marker at every position. *)
Lemma search_silence_re s : search silence_re s = Some <$> Scan.scan s.
Proof.
  induction s as [|c s IH]; cbn [search Scan.scan]; rewrite mat_silence_re;
    destruct (Scan.match_here _); simpl; auto.
Qed.

End Agree.

(** ** What the scan finds *)

(** [marker t g]: [t] starts with the literal, then blanks, then the
    number [g], which is not followed by another digit or dot. *)
Definition marker (t g : list ascii) : Prop :=
  exists w rest,
    t = Regex.silence_lit ++ w ++ g ++ rest /\
    Forall (fun c => py_isspace c = true) w /\ g <> [] /\
    Forall (fun c => is_num c = true) g /\
    (forall c rest', rest = c :: rest' -> is_num c = false).

Lemma drop_while_app p w v :
  Forall (fun c => p c = true) w -> (forall c r, v = c :: r -> p c = false) ->
  drop_while p (w ++ v) = v.
Proof.
  intros Hw Hv. induction Hw as [|c w Hc Hw IH]; simpl.
  - destruct v as [|c v]; [done|]. simpl. by rewrite (Hv c v eq_refl).
  - by rewrite Hc.
Qed.

Lemma take_while_app p g rest :
  Forall (fun c => p c = true) g -> (forall c r, rest = c :: r -> p c = false) ->
  take_while p (g ++ rest) = g.
Proof.
  intros Hg Hr. induction Hg as [|c g Hc Hg IH]; simpl.
  - destruct rest as [|c rest]; [done|]. simpl. by rewrite (Hr c rest eq_refl).
  - by rewrite Hc, IH.
Qed.

Lemma match_here_spec t g : Scan.match_here t = Some g <-> marker t g.
Proof.
  unfold Scan.match_here, marker. split.
  - destruct (strip_prefix _ t) as [rest0|] eqn:Hs; [|done].
    apply strip_prefix_Some in Hs as ->.
    destruct (take_while is_num _) as [|d g'] eqn:Hg; [done|]. intros [= <-].
    exists (take_while py_isspace rest0), (drop_while is_num (drop_while py_isspace rest0)).
    split; [|split; [apply take_while_all|split; [done|split]]].
    + f_equal. by rewrite <- Hg, !take_drop_while.
    + rewrite <- Hg. apply take_while_all.
    + intros c r Hr. exact (drop_while_head is_num _ c r Hr).
  - intros (w & rest & -> & Hw & Hne & Hg & Hr).
    rewrite (proj2 (strip_prefix_Some _ _ _) eq_refl).
    rewrite drop_while_app by
      (done || (intros c r Hcr; destruct g as [|d g]; [done|];
                injection Hcr as <- _; inversion Hg; subst;
                destruct (py_isspace d) eqn:Hs; [|done];
                by rewrite space_not_num in *)).
    rewrite take_while_app by done. by destruct g.
Qed.

Lemma scan_first s g :
  Scan.scan s = Some g <->
  exists i, Scan.match_here (drop i s) = Some g /\
            forall j, j < i -> Scan.match_here (drop j s) = None.
Proof.
  induction s as [|c s IH]; cbn [Scan.scan].
  - split.
    + intros Hm. exists 0. split; [done|lia].
    + intros (i & Hi & _). by rewrite drop_nil in Hi.
  - destruct (Scan.match_here (c :: s)) as [g0|] eqn:H0; split.
    + intros [= ->]. exists 0. split; [done|lia].
    + intros ([|i] & Hi & Hj); [simpl in Hi; congruence|].
      specialize (Hj 0 ltac:(lia)). simpl in Hj. congruence.
    + intros (i & Hi & Hj)%IH. exists (S i). split; [done|].
      intros [|j] ?; [done|]. apply Hj. lia.
    + intros ([|i] & Hi & Hj); [simpl in Hi; congruence|].
      apply IH. exists i. split; [done|]. intros j ?. apply (Hj (S j)). lia.
Qed.

(** C3. The detected silence end is the number after the leftmost
    ["silence_end:"] in ffmpeg's log that is followed (after blanks) by a
    digit or dot, taken as the longest run of digits and dots; no earlier
    position of the log has such a marker. *)
Theorem silence_end_of_log_spec stderr m :
  silence_end_of_log stderr = Some m <->
  exists i g, m = string_of_list_ascii g /\
    marker (drop i (list_ascii_of_string stderr)) g /\
    forall j g', j < i -> ~ marker (drop j (list_ascii_of_string stderr)) g'.
Proof.
  unfold silence_end_of_log. rewrite search_silence_re.
  destruct (Scan.scan _) as [g|] eqn:Hs; simpl; split.
  - intros [= <-]. apply scan_first in Hs as (i & Hi & Hj).
    exists i, g. split; [done|]. split; [by apply match_here_spec|].
    intros j g' Hji Hm%match_here_spec. rewrite Hj in Hm by done. discriminate.
  - intros (i & g' & -> & Hi & Hj). do 2 f_equal.
    assert (Hs' : Scan.scan (list_ascii_of_string stderr) = Some g').
    { apply scan_first. exists i. split; [by apply match_here_spec|].
      intros j Hji. destruct (Scan.match_here _) eqn:E; [|done].
      exfalso. apply (Hj j l Hji). by apply match_here_spec. }
    congruence.
  - done.
  - intros (i & g' & -> & Hi & Hj).
    assert (Hs' : Scan.scan (list_ascii_of_string stderr) = Some g').
    { apply scan_first. exists i. split; [by apply match_here_spec|].
      intros j Hji. destruct (Scan.match_here _) eqn:E; [|done].
      exfalso. apply (Hj j l Hji). by apply match_here_spec. }
    congruence.
Qed.

(** The backtracking model of [re.search] on the pattern of line 30
    and the direct scanner return the same marker on every log. *)
Lemma silence_end_of_log_scan stderr :
  silence_end_of_log stderr =
  string_of_list_ascii <$> Scan.scan (list_ascii_of_string stderr).
Proof.
  unfold silence_end_of_log. rewrite search_silence_re.
  by destruct (Scan.scan _).
Qed.

Lemma scan_none l : Scan.scan l = None <-> forall i, Scan.match_here (drop i l) = None.
Proof.
  induction l as [|c l IH]; cbn [Scan.scan].
  - split; [intros _ i; by rewrite drop_nil|done].
  - destruct (Scan.match_here (c :: l)) eqn:E; split.
    + done.
    + intros H. specialize (H 0). simpl in H. congruence.
    + intros Hn [|i]; [done|]. by apply IH.
    + intros H. apply IH. intros i. apply (H (S i)).
Qed.

(** C4. No marker is reported exactly when no position of the log holds
    ["silence_end:"] followed by blanks and a digit or dot. *)
Theorem silence_end_of_log_none stderr :
  silence_end_of_log stderr = None <->
  forall i g, ~ marker (drop i (list_ascii_of_string stderr)) g.
Proof.
  unfold silence_end_of_log. rewrite search_silence_re.
  transitivity (Scan.scan (list_ascii_of_string stderr) = None).
  { by destruct (Scan.scan _). }
  rewrite scan_none. split.
  - intros Hn i g Hm%match_here_spec. by rewrite Hn in Hm.
  - intros Hno i. destruct (Scan.match_here _) as [g|] eqn:E; [|done].
    exfalso. apply (Hno i g). by apply match_here_spec.
Qed.

(** The marker is never the empty string (the [+] needs one character). *)
Lemma match_here_nonempty t g : Scan.match_here t = Some g -> g <> [].
Proof.
  unfold Scan.match_here. destruct (strip_prefix _ t); [|done].
  by destruct (take_while _ _); intros [= <-].
Qed.

Lemma silence_end_nonempty stderr m : silence_end_of_log stderr = Some m -> m <> ""%string.
Proof.
  unfold silence_end_of_log. rewrite search_silence_re.
  destruct (Scan.scan _) as [g|] eqn:Hs; [|done]. intros [= <-].
  apply scan_first in Hs as (i & Hi%match_here_nonempty & _).
  by destruct g.
Qed.

(** ** What the scan accepts *)

(** The marker is the first [silence_end] of the log, wherever the
    silence started: a silence after 12 s of speech is taken as the
    leading one. *)
Remark silence_end_not_leading :
  silence_end_of_log
    "[silencedetect @ 0x5581] silence_start: 12.000
[silencedetect @ 0x5581] silence_end: 15.500 | silence_duration: 3.500
" = Some "15.500".
Proof. vm_compute. reflexivity. Qed.

(** [[\d\.]+] accepts text that is not a number, which is then passed to
    ffmpeg's [-ss]. *)
Remark silence_end_not_a_number :
  silence_end_of_log "silence_end: ." = Some "." /\
  silence_end_of_log "silence_end: 1.2.3" = Some "1.2.3".
Proof. vm_compute. split; reflexivity. Qed.
