(* ===== verification/World.v ===== *)
(** * The world the script acts on

    The script's state lives outside Python: files and directories, the
    processes it starts (ffmpeg), the HTTP endpoint it posts to, and the
    lines it prints.  [world] holds the filesystem and a log of the
    externally visible events in the order they happen; [Py] is the
    state/exception monad of the prelude over [world] and Python's
    exceptions.  The external collaborators are the two methods of the
    class [Env]: the effect of running a command line on the filesystem
    (with its exit code and diagnostic output), and the response of the
    transcription endpoint to a request.  Every component is proved for
    an arbitrary [Env]; [Media.v] gives a concrete one.

    The primitives below model the library calls of src/transcribe.py:
    [os.path.getsize], [os.makedirs(exist_ok=True)], [os.listdir],
    [open(p, "rb")], [open(p, "w").write], [subprocess.run] with and
    without [check=True], [requests.post] and [print].  How the event log
    grows ([log_grows]) is proved compositionally for them. *)

From Stdlib Require Import Ascii String ZArith.
From stdpp Require Import base list gmap strings.
From S2P Require Import Prelude PyStr.

(** ** Files *)

(** An audio/video stream: where it starts in the original recording,
    its duration, and the intervals the silence filter would report
    (start and end relative to the stream), all in milliseconds. *)
Record audio := mk_audio { au_start : Z; au_ms : Z; au_silences : list (Z * Z) }.

Inductive data :=
  | Audio (a : audio)
  | Text (s : string)
  | Blob.

Record content := mk_content { c_size : Z; c_data : data }.

(** Full paths of regular files and of directories. *)
Record fs := mk_fs { files : gmap string content; dirs : gset string }.

(** ** Events, requests, responses *)

(** The messages printed by the script (lines 38, 49, 81, 92, 100, 109),
    with the values they interpolate. *)
Inductive msg :=
  | MsgTrimming (start : string)
  | MsgNoSilence
  | MsgSending (path : string)
  | MsgTooBig
  | MsgSmall
  | MsgDone (path : string).

#[warnings="-register-all"]
Inductive json :=
  | JNull
  | JBool (b : bool)
  | JNum (z : Z)
  | JStr (s : string)
  | JArr (l : list json)
  | JObj (kv : list (string * json)).

(** A multipart POST: URL, the [Authorization] header, the uploaded
    file's path and bytes, and the form fields, form-encoded. *)
Record request := mk_request {
  rq_url : string;
  rq_auth : string;
  rq_path : string;
  rq_file : content;
  rq_form : list (string * string)
}.

(** A response: its status and its body parsed as JSON ([None] when the
    body is not JSON). *)
Record response := mk_response { rs_status : Z; rs_json : option json }.

Inductive event :=
  | ERun (cmd : list string) (rc : Z)
  | EPost (rq : request) (rs : response)
  | EPrint (m : msg)
  | EOpenWrite (path : string).

Record world := mk_world { w_fs : fs; w_log : list event }.

Inductive exn :=
  | CalledProcessError (rc : Z) (cmd : list string)
  | HTTPError (status : Z)
  | ConnectionError
  | FileNotFoundError (path : string)
  | FileExistsError (path : string)
  | NotADirectoryError (path : string)
  | IsADirectoryError (path : string)
  | JSONDecodeError
  | KeyError (key : string)
  | TypeError (what : string).

Abbreviation Py := (SE world exn).

(** What running a command line does: its exit code, what it wrote to its
    standard error, and the filesystem afterwards. *)
Record proc_result := mk_proc { pr_rc : Z; pr_stderr : string; pr_fs : fs }.

Class Env := {
  env_run : list string -> fs -> proc_result;
  env_post : request -> option response
}.

(** ** Paths *)

(** The directories [os.makedirs(d)] creates, outermost first:
    ["a/b"] gives ["a"; "a/b"]. *)
Definition ancestors (d : string) : list string :=
  let parts := py_split "/" d in
  filter (fun a => a <> "") ((fun k => py_join "/" (take k parts)) <$> seq 1 (length parts)).

(** The parent directory ([posixpath.dirname] of a path without a
    trailing slash). *)
Definition dirname (p : string) : string :=
  py_join "/" (removelast (py_split "/" p)).

(** The entry name of [p] if [p] lies directly inside directory [d]. *)
Definition child_name (d p : string) : option string :=
  let pre := list_ascii_of_string (path_join d "") in
  match strip_prefix pre (list_ascii_of_string p) with
  | Some rest => if bool_decide ("/"%char ∈ rest) || bool_decide (rest = []) then None
                 else Some (string_of_list_ascii rest)
  | None => None
  end.

(** Bytes of the UTF-8 encoding of a string of code points below U+0100. *)
Definition utf8_size (s : string) : Z :=
  Z.of_nat (foldr (fun c n => if nat_of_ascii c <? 128 then S n else S (S n)) 0
                  (list_ascii_of_string s)).

(** ** The library calls *)

Section Primitives.
Context `{Env}.

Definition log (e : event) : Py unit :=
  modify (fun w => mk_world (w_fs w) (w_log w ++ [e])).

Definition py_print (m : msg) : Py unit := log (EPrint m).

(** [subprocess.run(cmd, ...)] without [check]: the exit code is
    returned, not checked. *)
Definition subprocess_run (cmd : list string) : Py proc_result :=
  fun w => let r := env_run cmd (w_fs w) in
           (Ok r, mk_world (pr_fs r) (w_log w ++ [ERun cmd (pr_rc r)])).

(** [subprocess.run(cmd, check=True)]: a non-zero exit code raises
    [CalledProcessError]. *)
Definition subprocess_run_check (cmd : list string) : Py unit :=
  r ← subprocess_run cmd;
  if bool_decide (pr_rc r = 0%Z) then mret () else raise (CalledProcessError (pr_rc r) cmd).

(** [os.path.getsize(p)]: [st_size]; a directory's is its block size. *)
Definition dir_size : Z := 4096.

Definition os_path_getsize (p : string) : Py Z :=
  fun w => match files (w_fs w) !! p with
           | Some c => (Ok (c_size c), w)
           | None => if bool_decide (p ∈ dirs (w_fs w)) then (Ok dir_size, w)
                     else (Raise (FileNotFoundError p), w)
           end.

(** [os.makedirs(d, exist_ok=True)]: creates [d] and its missing parents;
    an existing directory is no error, a file in the way is. *)
Definition makedirs_fs (F : fs) (d : string) : fs :=
  mk_fs (files F) (dirs F ∪ list_to_set (ancestors d)).

Definition os_makedirs (d : string) : Py unit :=
  fun w =>
    let F := w_fs w in
    if bool_decide (d ∈ dom (files F)) then (Raise (FileExistsError d), w)
    else if bool_decide (Exists (fun a => a ∈ dom (files F)) (ancestors d))
    then (Raise (NotADirectoryError d), w)
    else (Ok (), mk_world (makedirs_fs F d) (w_log w)).

(** The names of the entries directly inside [d]. *)
Definition entry_set (F : fs) (d : string) : gset string :=
  list_to_set (omap (child_name d) (elements (dom (files F) ∪ dirs F))).

(** [os.listdir(d)]: each name once, in an order the script must not
    rely on. *)
Definition os_listdir (d : string) : Py (list string) :=
  fun w =>
    if bool_decide (d ∈ dirs (w_fs w)) then (Ok (elements (entry_set (w_fs w) d)), w)
    else if bool_decide (d ∈ dom (files (w_fs w))) then (Raise (NotADirectoryError d), w)
    else (Raise (FileNotFoundError d), w).

(** [open(p, "rb")]: the file's bytes. *)
Definition open_read (p : string) : Py content :=
  fun w => match files (w_fs w) !! p with
           | Some c => (Ok c, w)
           | None => if bool_decide (p ∈ dirs (w_fs w)) then (Raise (IsADirectoryError p), w)
                     else (Raise (FileNotFoundError p), w)
           end.

(** [requests.post(...)]: a transport failure raises; any response,
    whatever its status, is returned. *)
Definition requests_post (rq : request) : Py response :=
  fun w => match env_post rq with
           | Some rs => (Ok rs, mk_world (w_fs w) (w_log w ++ [EPost rq rs]))
           | None => (Raise ConnectionError, w)
           end.

(** [with open(p, "w", encoding="utf-8") as f: f.write(x)]: [open]
    creates or truncates the file, then [write] accepts only a [str];
    on a [TypeError] the file stays truncated. *)
Definition write_text_file (p : string) (x : json) : Py unit :=
  fun w =>
    let F := w_fs w in
    if bool_decide (p ∈ dirs F) then (Raise (IsADirectoryError p), w)
    else if bool_decide (dirname p <> "" /\ dirname p ∉ dirs F)
    then (Raise (FileNotFoundError p), w)
    else
      let L := w_log w ++ [EOpenWrite p] in
      match x with
      | JStr s =>
          (Ok (), mk_world (mk_fs (<[p := mk_content (utf8_size s) (Text s)]> (files F)) (dirs F)) L)
      | _ =>
          (Raise (TypeError "write() argument must be str"),
           mk_world (mk_fs (<[p := mk_content 0 (Text "")]> (files F)) (dirs F)) L)
      end.

(** A Python expression that returns or raises without effects. *)
Definition lift {A} (o : outcome exn A) : Py A := fun w => (o, w).

End Primitives.

(** ** How the event log grows

    [log_grows P c]: whatever [c] returns or raises, it only appends
    events satisfying [P] to the log. *)
Definition log_grows (P : event -> Prop) {A} (c : Py A) : Prop :=
  forall w r w', c w = (r, w') -> exists L, w_log w' = w_log w ++ L /\ Forall P L.

Section LogGrows.
Context `{Env} (P : event -> Prop).

Lemma log_grows_ret {A} (a : A) : log_grows P (mret a).
Proof. intros w r w' [= _ <-]. exists []. by rewrite app_nil_r. Qed.

Lemma log_grows_raise {A} e : log_grows P (raise e : Py A).
Proof. intros w r w' [= _ <-]. exists []. by rewrite app_nil_r. Qed.

Lemma log_grows_bind {A B} (c : Py A) (f : A -> Py B) :
  log_grows P c -> (forall a, log_grows P (f a)) -> log_grows P (c ≫= f).
Proof.
  intros Hc Hf w r w' Hr.
  destruct (bind_inv _ _ _ _ _ Hr) as [(a & w1 & H1 & H2) | (e & H1 & _)].
  - destruct (Hc _ _ _ H1) as (L1 & E1 & F1). destruct (Hf a _ _ _ H2) as (L2 & E2 & F2).
    exists (L1 ++ L2). rewrite E2, E1, app_assoc. split; [done|]. by apply Forall_app.
  - by apply (Hc _ _ _ H1).
Qed.

Lemma log_grows_if {A} (b : bool) (c1 c2 : Py A) :
  log_grows P c1 -> log_grows P c2 -> log_grows P (if b then c1 else c2).
Proof. by destruct b. Qed.

Lemma log_grows_print m : P (EPrint m) -> log_grows P (py_print m).
Proof. intros HP w r w' [= _ <-]. exists [EPrint m]. simpl. auto. Qed.

Lemma log_grows_run cmd : (forall rc, P (ERun cmd rc)) -> log_grows P (subprocess_run cmd).
Proof. intros HP w r w' [= _ <-]. eexists. split; [done|]. auto. Qed.

Lemma log_grows_run_check cmd : (forall rc, P (ERun cmd rc)) -> log_grows P (subprocess_run_check cmd).
Proof.
  intros HP. apply log_grows_bind; [by apply log_grows_run|].
  intros r. case_bool_decide; [apply log_grows_ret|apply log_grows_raise].
Qed.

Lemma log_grows_pure {A} (c : Py A) :
  (forall w r w', c w = (r, w') -> w_log w' = w_log w) -> log_grows P c.
Proof. intros Hc w r w' Hr. exists []. rewrite app_nil_r. eauto. Qed.

Lemma log_grows_getsize p : log_grows P (os_path_getsize p).
Proof.
  apply log_grows_pure. intros w r w'. unfold os_path_getsize.
  destruct (_ !! p); [by intros [= _ <-]|]. case_bool_decide; by intros [= _ <-].
Qed.

Lemma log_grows_makedirs d : log_grows P (os_makedirs d).
Proof.
  apply log_grows_pure. intros w r w'. unfold os_makedirs.
  repeat case_bool_decide; by intros [= _ <-].
Qed.

Lemma log_grows_listdir d : log_grows P (os_listdir d).
Proof.
  apply log_grows_pure. intros w r w'. unfold os_listdir.
  repeat case_bool_decide; by intros [= _ <-].
Qed.

Lemma log_grows_lift {A} (o : outcome exn A) : log_grows P (lift o).
Proof. apply log_grows_pure. by intros w r w' [= _ <-]. Qed.

Lemma log_grows_open_read p : log_grows P (open_read p).
Proof.
  apply log_grows_pure. intros w r w'. unfold open_read.
  destruct (_ !! _); [by intros [= _ <-]|]. case_bool_decide; by intros [= _ <-].
Qed.

Lemma log_grows_post rq : (forall rs, P (EPost rq rs)) -> log_grows P (requests_post rq).
Proof.
  intros HP w r w'. unfold requests_post. destruct (env_post _); intros [= _ <-]; eexists.
  - split; [done|]. auto.
  - by rewrite app_nil_r.
Qed.

Lemma log_grows_write p x : P (EOpenWrite p) -> log_grows P (write_text_file p x).
Proof.
  intros HP w r w'. unfold write_text_file.
  repeat case_bool_decide; [by intros [= _ <-]; exists []; rewrite app_nil_r
                           |by intros [= _ <-]; exists []; rewrite app_nil_r|].
  destruct x; intros [= _ <-]; eexists; (split; [done|]); auto.
Qed.

End LogGrows.

#[export] Hint Resolve log_grows_ret log_grows_raise log_grows_bind log_grows_if
  log_grows_getsize log_grows_makedirs log_grows_listdir : py.

(** Decompose a computation into the primitives whose log growth is known. *)
Ltac grow :=
  repeat first
    [ progress intros
    | apply log_grows_bind
    | apply log_grows_if
    | apply log_grows_ret
    | apply log_grows_raise
    | apply log_grows_getsize
    | apply log_grows_makedirs
    | apply log_grows_listdir
    | apply log_grows_lift
    | apply log_grows_open_read
    | apply log_grows_write; solve [auto]
    | apply log_grows_post; solve [auto]
    | apply log_grows_print; solve [auto]
    | apply log_grows_run_check; solve [auto]
    | apply log_grows_run; solve [auto] ].

(** ** Successful runs of the primitives *)

Section PrimitiveRuns.
Context `{Env}.

Lemma print_run m w : py_print m w = (Ok (), mk_world (w_fs w) (w_log w ++ [EPrint m])).
Proof. reflexivity. Qed.

Lemma makedirs_ok d w u w' :
  os_makedirs d w = (Ok u, w') -> w' = mk_world (makedirs_fs (w_fs w) d) (w_log w).
Proof. unfold os_makedirs. by repeat case_bool_decide; intros [= _ <-]. Qed.

Lemma write_ok p x w u w' :
  write_text_file p x w = (Ok u, w') ->
  exists s, x = JStr s /\
    w' = mk_world (mk_fs (<[p := mk_content (utf8_size s) (Text s)]> (files (w_fs w)))
                         (dirs (w_fs w))) (w_log w ++ [EOpenWrite p]).
Proof.
  unfold write_text_file. repeat case_bool_decide; try discriminate.
  destruct x; try discriminate. intros [= _ <-]. eauto.
Qed.

End PrimitiveRuns.

Lemma log_grows_for_append `{Env} (P : event -> Prop) {A B} (f : A -> Py B) xs acc :
  (forall x, log_grows P (f x)) -> log_grows P (for_append f xs acc).
Proof.
  intros Hf. revert acc. induction xs as [|x xs IH]; intros acc; simpl.
  - apply log_grows_ret.
  - apply log_grows_bind; [done|]. intros y. apply IH.
Qed.

(** ** Where a file can be created

    [p] lies at the top level or inside an existing directory. *)
Definition parent_ok (F : fs) (p : string) : Prop := dirname p = "" \/ dirname p ∈ dirs F.
