(* ===== verification/Media.v ===== *)
(** * A concrete environment: ffmpeg and the transcription endpoint

    The script's theorems hold for every [Env].  This file gives one
    executable environment, modelled on what the spec (sections 4.1-4.3
    and 6) and ffmpeg's documentation say the collaborators do, so that
    the theorems can be applied to concrete runs and the findings shown
    on concrete inputs:

    - the silence filter prints a [silence_start]/[silence_end] line pair
      per silent interval, times in seconds with three decimals;
    - [-ss t] re-encodes from [t] (seconds, decimal point optional) and
      refuses an output that exists, since the command has no [-y];
    - the segment muxer writes [ceil(duration / segment_time)] files named
      by expanding ["%03d"] in the pattern, each into an existing
      directory and not over a directory (otherwise it fails and writes
      nothing, a simplification of ffmpeg stopping at the first file it
      cannot open);
    - encoding at 128 kbit/s makes 16 bytes per millisecond;
    - the endpoint answers 413 above 26214400 bytes, 400 for a file that
      is not audio, and otherwise 200 with [{"text": ...}]. *)

From Stdlib Require Import Ascii String ZArith.
From stdpp Require Import base list gmap strings.
From S2P Require Import Prelude PyStr SilenceDetect World.

Module Media.

Definition NL : string := String (ascii_of_nat 10) EmptyString.

(** Seconds with three decimals, as the filter prints them. *)
Definition ms_str (ms : Z) : string :=
  py_str_nat (Z.to_nat (ms / 1000)) +:+ "." +:+ fmt03 (Z.to_nat (ms mod 1000)).

Definition silence_lines (a : audio) : string :=
  String.concat ""
    ((fun '(s, e) =>
        "[silencedetect @ 0x5581] silence_start: " +:+ ms_str s +:+ NL +:+
        "[silencedetect @ 0x5581] silence_end: " +:+ ms_str e +:+
        " | silence_duration: " +:+ ms_str (e - s) +:+ NL) <$> au_silences a).

Definition banner (inp : string) : string :=
  "Input #0, mov,mp4,m4a,3gp,3g2,mj2, from '" +:+ inp +:+ "':" +:+ NL.

Definition audio_at (F : fs) (p : string) : option audio :=
  match files F !! p with Some (mk_content _ (Audio a)) => Some a | _ => None end.

(** 128 kbit/s. *)
Definition encoded (a : audio) : content := mk_content (16 * au_ms a) (Audio a).

Definition digit_value (c : ascii) : nat := nat_of_ascii c - 48.

Definition parse_digits (l : list ascii) : option nat :=
  match l with
  | [] => None
  | _ => foldl (fun acc c => n ← acc; if py_isdigit c then Some (10 * n + digit_value c) else None)
               (Some 0) l
  end.

(** A duration ["S"] or ["S.fff..."] in milliseconds. *)
Definition parse_time (s : string) : option Z :=
  match split_chars "." (list_ascii_of_string s) with
  | [a] => n ← parse_digits a; Some (1000 * Z.of_nat n)%Z
  | [a; b] =>
      n ← parse_digits a;
      if forallb py_isdigit b then
        f ← (if b is [] then Some 0 else parse_digits (take 3 (b ++ ["0"; "0"; "0"]%char)));
        Some (1000 * Z.of_nat n + Z.of_nat f)%Z
      else None
  | _ => None
  end.

(** The stream from [t] on. *)
Definition cut (a : audio) (t : Z) : audio :=
  mk_audio (au_start a + t) (Z.max 0 (au_ms a - t))
    ((fun '(s, e) => (Z.max 0 (s - t), e - t)%Z) <$>
       filter (fun '(_, e) => (t < e)%Z) (au_silences a)).

(** ["%03d"] in a pattern, expanded for segment [i]. *)
Definition expand (pat : string) (i : nat) : string :=
  match split_chars "%" (list_ascii_of_string pat) with
  | [a; b] =>
      if bool_decide (take 3 b = list_ascii_of_string "03d")
      then string_of_list_ascii a +:+ fmt03 i +:+ string_of_list_ascii (drop 3 b)
      else pat
  | _ => pat
  end.

Definition segment (a : audio) (seg : Z) (i : nat) : audio :=
  mk_audio (au_start a + Z.of_nat i * seg) (Z.min seg (au_ms a - Z.of_nat i * seg)) [].

Definition fail (msg : string) (F : fs) : proc_result := mk_proc 1 msg F.

(** An output file can be opened: its directory exists and it is not a
    directory itself. *)
Definition can_create (F : fs) (p : string) : bool :=
  bool_decide (parent_ok F p /\ p ∉ dirs F).

(** [-af silencedetect=...]: the log, the filesystem unchanged. *)
Definition run_detect (inp : string) (a : audio) (flt : string) (F : fs) : proc_result :=
  if String.eqb flt "silencedetect=noise=-40dB:d=0.5"
  then mk_proc 0 (banner inp +:+ silence_lines a) F
  else fail "Invalid filter" F.

(** [-ss t ... out]: re-encode from [t]; without [-y] an existing output
    is refused. *)
Definition run_trim (inp : string) (a : audio) (t out : string) (F : fs) : proc_result :=
  match parse_time t with
  | None => fail ("Invalid duration specification for ss: " +:+ t) F
  | Some ms =>
      if bool_decide (out ∈ dom (files F))
      then fail ("File '" +:+ out +:+ "' already exists. Exiting.") F
      else if can_create F out
      then mk_proc 0 (banner inp) (mk_fs (<[out := encoded (cut a ms)]> (files F)) (dirs F))
      else fail (out +:+ ": No such file or directory") F
  end.

(** [-f segment -segment_time st ... pat]: [ceil(duration / st)] files. *)
Definition run_segment (inp : string) (a : audio) (st pat : string) (F : fs) : proc_result :=
  match parse_digits (list_ascii_of_string st) with
  | Some (S _ as secs) =>
      let seg := (1000 * Z.of_nat secs)%Z in
      let n := Z.to_nat ((au_ms a + seg - 1) / seg) in
      if forallb (fun i => can_create F (expand pat i)) (seq 0 n) then
        mk_proc 0 (banner inp)
          (mk_fs (foldl (fun m i => <[expand pat i := encoded (segment a seg i)]> m)
                        (files F) (seq 0 n)) (dirs F))
      else fail (pat +:+ ": No such file or directory") F
  | _ => fail "Invalid segment time" F
  end.

Definition ffmpeg_run (cmd : list string) (F : fs) : proc_result :=
  match cmd with
  | prog :: opt :: inp :: rest =>
      if bool_decide (prog = "ffmpeg" /\ opt = "-i") then
        match audio_at F inp with
        | None => fail (inp +:+ ": No such file or directory") F
        | Some a =>
            match rest with
            | [o1; flt; o2; o3; o4] =>
                if bool_decide ([o1; o2; o3; o4] = ["-af"; "-f"; "null"; "-"])
                then run_detect inp a flt F else fail "Unrecognized option" F
            | [o1; t; o2; o3; o4; o5; out] =>
                if bool_decide ([o1; o2; o3; o4; o5] = ["-ss"; "-c:a"; "aac"; "-b:a"; "128k"])
                then run_trim inp a t out F else fail "Unrecognized option" F
            | [o1; o2; o3; st; o4; o5; o6; o7; pat] =>
                if bool_decide ([o1; o2; o3; o4; o5; o6; o7] =
                                ["-f"; "segment"; "-segment_time"; "-c:a"; "libmp3lame"; "-b:a"; "128k"])
                then run_segment inp a st pat F else fail "Unrecognized option" F
            | _ => fail "Unrecognized option" F
            end
        end
      else fail "not ffmpeg" F
  | _ => fail "not ffmpeg" F
  end.

(** The transcript of a stream names where it starts in the recording. *)
Definition speech (a : audio) : string := "speech from " +:+ ms_str (au_start a).

Definition whisper_post (rq : request) : option response :=
  let c := rq_file rq in
  if bool_decide (26214400 < c_size c)%Z
  then Some (mk_response 413 (Some (JObj [("error", JStr "Maximum content size limit exceeded")])))
  else match c_data c with
       | Audio a => Some (mk_response 200 (Some (JObj [("text", JStr (speech a))])))
       | _ => Some (mk_response 400 (Some (JObj [("error", JStr "Invalid file format")])))
       end.

(** The environment with ffmpeg and a given endpoint. *)
Definition env_with (post : request -> option response) : Env :=
  {| env_run := ffmpeg_run; env_post := post |}.

Definition env : Env := env_with whisper_post.

(** A world holding one recording at [path] in directory ["audio"]. *)
Definition world_with (path : string) (size : Z) (a : audio) : world :=
  mk_world (mk_fs {[path := mk_content size (Audio a)]} {["audio"]}) [].

End Media.
