(* ===== verification/Trim.v ===== *)
(** * SilenceTrimmer: [detect_voice_start] and [trim_silence]

    src/transcribe.py lines 17-50.  [detect_voice_start] runs ffmpeg's
    silence filter without [check=True] and scans its standard error
    ([SilenceDetect.v]); [trim_silence] re-encodes the input from the
    detected time when the result is truthy, and otherwise returns the
    input path unchanged.  Both are computations of [Py] over an arbitrary
    environment [Env]. *)

From Stdlib Require Import Ascii String ZArith.
From stdpp Require Import base list gmap strings.
From S2P Require Import Prelude PyStr SilenceDetect World.

Section Trim.
Context `{Env}.

(** Lines 22-26. *)
Definition detect_cmd (file_path : string) : list string :=
  ["ffmpeg"; "-i"; file_path; "-af"; "silencedetect=noise=-40dB:d=0.5"; "-f"; "null"; "-"].

(** Lines 17-33. *)
Definition detect_voice_start (file_path : string) : Py (option string) :=
  result ← subprocess_run (detect_cmd file_path);
  mret (silence_end_of_log (pr_stderr result)).

(** Lines 40-45. *)
Definition trim_cmd (file_path start_time output_path : string) : list string :=
  ["ffmpeg"; "-i"; file_path; "-ss"; start_time; "-c:a"; "aac"; "-b:a"; "128k"; output_path].

(** Python truthiness of an [Optional[str]]: [None] and [""] are false. *)
Definition py_truthy (o : option string) : bool :=
  match o with Some s => negb (String.eqb s "") | None => false end.

(** Lines 35-50. *)
Definition trim_silence (file_path output_path : string) : Py string :=
  start_time ← detect_voice_start file_path;
  if py_truthy start_time then
    let t := default "" start_time in
    py_print (MsgTrimming t);;
    subprocess_run_check (trim_cmd file_path t output_path);;
    mret output_path
  else
    py_print MsgNoSilence;;
    mret file_path.

(** The world after a run of the detection command. *)
Definition after_detect (file_path : string) (w : world) : world :=
  let r := env_run (detect_cmd file_path) (w_fs w) in
  mk_world (pr_fs r) (w_log w ++ [ERun (detect_cmd file_path) (pr_rc r)]).

(** C5. [trim_silence] on every branch: the silence filter is run once;
    with no marker the input path is returned and nothing else is run;
    with a marker [t] (never empty, so the truthiness test of line 37 is
    exactly "a marker was found") the re-encode command with [-ss t] is
    run and the output path returned if it exits with 0, while a non-zero
    exit raises [CalledProcessError]. *)
Theorem trim_silence_run file_path output_path w :
  trim_silence file_path output_path w =
  let w1 := after_detect file_path w in
  let r := env_run (detect_cmd file_path) (w_fs w) in
  match silence_end_of_log (pr_stderr r) with
  | None => (Ok file_path, mk_world (w_fs w1) (w_log w1 ++ [EPrint MsgNoSilence]))
  | Some t =>
      let cmd := trim_cmd file_path t output_path in
      let r2 := env_run cmd (w_fs w1) in
      let w2 := mk_world (pr_fs r2) (w_log w1 ++ [EPrint (MsgTrimming t); ERun cmd (pr_rc r2)]) in
      if bool_decide (pr_rc r2 = 0%Z) then (Ok output_path, w2)
      else (Raise (CalledProcessError (pr_rc r2) cmd), w2)
  end.
Proof.
  unfold trim_silence, detect_voice_start, after_detect, subprocess_run_check,
    subprocess_run, py_print, log. se_unfold. cbn.
  destruct (silence_end_of_log _) as [t|] eqn:Ht; cbn; [|done].
  pose proof (silence_end_nonempty _ _ Ht) as Hne.
  destruct (String.eqb_spec t "") as [->|_]; [done|]. cbn.
  rewrite <- !app_assoc. by case_bool_decide.
Qed.

End Trim.

(** [trim_silence] returns its input or its output path. *)
Lemma trim_silence_ok `{Env} file_path output_path w a w' :
  trim_silence file_path output_path w = (Ok a, w') -> a = file_path \/ a = output_path.
Proof.
  unfold trim_silence. intros H0. inv_ok H0 st w1 H1 H2.
  destruct (py_truthy st).
  - inv_ok H2 u w2 H3 H4. inv_ok H4 u' w3 H5 H6. se_unfold. injection H6 as <- _. by right.
  - inv_ok H2 u w2 H3 H4. se_unfold. injection H4 as <- _. by left.
Qed.

Lemma log_grows_trim `{Env} (P : event -> Prop) file_path output_path :
  (forall cmd rc, P (ERun cmd rc)) -> (forall m, P (EPrint m)) ->
  log_grows P (trim_silence file_path output_path).
Proof. intros. unfold trim_silence, detect_voice_start. grow. Qed.
