(* ===== verification/Split.v ===== *)
(** * Chunker: [split_audio]

    src/transcribe.py lines 52-67.  [split_audio] creates the output
    folder, runs ffmpeg's segment muxer with the pattern
    ["<folder>/part_%03d.mp3"] and [check=True], then lists the folder and
    returns the sorted paths of all its [.mp3] entries.  ffmpeg expands the
    pattern with C's ["%03d"], giving [part_name i] for segment [i].

    The theorems show: the returned list is the segments in chronological
    order whenever there are at most 1000 of them and the folder held no
    other [.mp3] file (C6); with 1001 segments or more the order is lost
    (C7); and the order in which [os.listdir] reports the names never
    matters. *)

From Stdlib Require Import Ascii String ZArith.
From stdpp Require Import base list gmap strings sorting.
From S2P Require Import Prelude PyStr World Media.

(** The file ffmpeg writes for segment [i] of the pattern of line 58. *)
Definition part_name (i : nat) : string := "part_" +:+ fmt03 i +:+ ".mp3".

Definition is_mp3 (f : string) : bool := py_endswith f ".mp3".

(** The paths of the first [n] segments, in segment (chronological) order. *)
Definition part_paths (folder : string) (n : nat) : list string :=
  (fun i => path_join folder (part_name i)) <$> seq 0 n.

Section Split.
Context `{Env}.

(** Lines 59-65. *)
Definition split_cmd (file_path output_pattern : string) (segment_length : nat)
    : list string :=
  ["ffmpeg"; "-i"; file_path; "-f"; "segment"; "-segment_time"; py_str_nat segment_length;
   "-c:a"; "libmp3lame"; "-b:a"; "128k"; output_pattern].

(** Line 58. *)
Definition output_pattern (output_folder : string) : string :=
  path_join output_folder "part_%03d.mp3".

(** Lines 52-67. *)
Definition split_audio (file_path output_folder : string) (segment_length : nat)
    : Py (list string) :=
  os_makedirs output_folder;;
  subprocess_run_check (split_cmd file_path (output_pattern output_folder) segment_length);;
  names ← os_listdir output_folder;
  mret (py_sorted (path_join output_folder <$> filter (fun f => is_mp3 f = true) names)).

End Split.

(** ** Order of the segment files *)

Lemma part_name_rel i : is_abs (part_name i) = false.
Proof. reflexivity. Qed.

Lemma part_path_compare folder i j :
  i < 1000 -> j < 1000 ->
  String.compare (path_join folder (part_name i)) (path_join folder (part_name j)) =
  Nat.compare i j.
Proof.
  intros Hi Hj.
  rewrite (path_join_rel folder (part_name i)), (path_join_rel folder (part_name j)) by done.
  rewrite compare_app_prefix. unfold part_name. rewrite compare_app_prefix.
  rewrite compare_app_eqlen by (rewrite !fmt03_length; done).
  rewrite fmt03_compare by done.
  destruct (Nat.compare_spec i j); [subst; reflexivity|done|done].
Qed.

(** The segment paths, in segment order, are sorted as strings. *)
Lemma part_paths_sorted folder n :
  n <= 1000 -> StronglySorted String.le (part_paths folder n).
Proof.
  intros Hn. apply StronglySorted_fmap_seq. intros i j _ Hij Hj.
  apply str_lt_le. rewrite part_path_compare by lia. by apply Nat.compare_lt_iff.
Qed.

(** From the 1001st segment on, ["%03d"] gives four digits and
    ["part_1000.mp3"] sorts before ["part_101.mp3"]. *)
Lemma part_1000_before_101 folder :
  String.compare (path_join folder (part_name 1000)) (path_join folder (part_name 101)) = Lt.
Proof.
  rewrite (path_join_rel folder (part_name 1000)), (path_join_rel folder (part_name 101))
    by done.
  rewrite compare_app_prefix. vm_compute. reflexivity.
Qed.

(** C7. Sorting the segment paths by name gives back their chronological
    order exactly when there are at most 1000 segments: ["%03d"] pads to
    three digits only. *)
Theorem part_paths_sorted_iff folder n :
  py_sorted (part_paths folder n) = part_paths folder n <-> n <= 1000.
Proof.
  split.
  - intros Hs. destruct (Nat.le_gt_cases n 1000) as [|Hn]; [done|exfalso].
    pose proof (py_sorted_sorted (part_paths folder n)) as Hso. rewrite Hs in Hso.
    unfold part_paths in Hso.
    replace n with (102 + (n - 102)) in Hso by lia.
    rewrite seq_app, fmap_app in Hso.
    apply (StronglySorted_app_1_elem_of _ _ _ (path_join folder (part_name 101))
             (path_join folder (part_name 1000))) in Hso.
    + apply str_le_not_gt in Hso. apply Hso.
      rewrite String.compare_antisym, part_1000_before_101. done.
    + apply list_elem_of_fmap. exists 101. split; [done|]. apply elem_of_seq. lia.
    + apply list_elem_of_fmap. exists 1000. split; [done|]. apply elem_of_seq. lia.
  - intros Hn. apply py_sorted_unique; [by apply part_paths_sorted|done].
Qed.

Section SplitRun.
Context `{Env}.

(** C6. When the folder can be created, ffmpeg exits with 0 and the [.mp3]
    entries of the folder afterwards are exactly the [n <= 1000] segment
    files, [split_audio] returns the segment paths in chronological order,
    whatever order [os.listdir] lists them in. *)
Theorem split_audio_in_order file_path folder seg n w :
  folder ∉ dom (files (w_fs w)) ->
  ~ Exists (fun a => a ∈ dom (files (w_fs w))) (ancestors folder) ->
  let r := env_run (split_cmd file_path (output_pattern folder) seg)
                   (makedirs_fs (w_fs w) folder) in
  pr_rc r = 0%Z ->
  folder ∈ dirs (pr_fs r) ->
  filter (fun f => is_mp3 f = true) (elements (entry_set (pr_fs r) folder))
    ≡ₚ part_name <$> seq 0 n ->
  n <= 1000 ->
  fst (split_audio file_path folder seg w) = Ok (part_paths folder n).
Proof.
  intros Hf Ha r Hrc Hd Hmp3 Hn.
  unfold split_audio, os_makedirs, subprocess_run_check, subprocess_run, os_listdir.
  se_unfold. rewrite !bool_decide_false by done. cbn. fold r.
  rewrite bool_decide_true by done. cbn. rewrite bool_decide_true by done. cbn.
  f_equal. apply py_sorted_unique; [by apply part_paths_sorted|].
  unfold part_paths. rewrite Hmp3, <- list_fmap_compose. done.
Qed.

End SplitRun.

(** Every path [split_audio] returns is an [.mp3] entry of the folder. *)
Lemma split_audio_ok `{Env} file_path folder seg w ps w' :
  split_audio file_path folder seg w = (Ok ps, w') ->
  Forall (fun p => exists f, p = path_join folder f /\ is_mp3 f = true) ps.
Proof.
  unfold split_audio. intros H0. inv_ok H0 u w1 H1 H2. inv_ok H2 u' w2 H3 H4.
  inv_ok H4 names w3 H5 H6. se_unfold. injection H6 as <- _.
  rewrite (py_sorted_perm _), Forall_fmap, Forall_forall.
  intros f Hf%list_elem_of_filter. exists f. split; [done|]. apply Hf.
Qed.

Lemma log_grows_split `{Env} (P : event -> Prop) file_path folder seg :
  (forall cmd rc, P (ERun cmd rc)) -> log_grows P (split_audio file_path folder seg).
Proof. intros. unfold split_audio. grow. Qed.

(** ** Concrete runs (the ffmpeg model of [Media.v]) *)

(** The spec's example: a 900-second file in 300-second segments. *)
Definition nine_minutes : world :=
  Media.world_with "audio/lecture.mp4" 14400000 (mk_audio 0 900000 []).

Definition split_nine_minutes_cmd_result : proc_result :=
  Media.ffmpeg_run (split_cmd "audio/lecture.mp4" (output_pattern "audio_parts") 300)
                   (makedirs_fs (w_fs nine_minutes) "audio_parts").

(** C6 applied to the spec's example: three parts, in order. *)
Lemma split_audio_in_order_witness :
  fst (@split_audio Media.env "audio/lecture.mp4" "audio_parts" 300 nine_minutes) =
  Ok ["audio_parts/part_000.mp3"; "audio_parts/part_001.mp3"; "audio_parts/part_002.mp3"].
Proof.
  apply (@split_audio_in_order Media.env "audio/lecture.mp4" "audio_parts" 300 3 nine_minutes).
  - vm_compute. set_solver.
  - vm_compute. intros H. inversion H as [? ? Hx|? ? Hx]; [set_solver|inversion Hx].
  - vm_compute. reflexivity.
  - vm_compute. set_solver.
  - apply (bool_decide_unpack _). vm_compute. reflexivity.
  - lia.
Defined.

(** A part left in [audio_parts/] by an earlier, longer recording. *)
Definition nine_minutes_stale : world :=
  mk_world (mk_fs (<["audio_parts/part_003.mp3" := mk_content 4800000 (Audio (mk_audio 0 300000 []))]>
                     (files (w_fs nine_minutes)))
                  {["audio"; "audio_parts"]}) [].

(** The stale part is returned with the three new ones: [split_audio]
    lists the whole folder, not the files its ffmpeg run produced, so a
    later step transcribes a segment of another recording. *)
Remark split_audio_stale_part :
  fst (@split_audio Media.env "audio/lecture.mp4" "audio_parts" 300 nine_minutes_stale) =
  Ok ["audio_parts/part_000.mp3"; "audio_parts/part_001.mp3"; "audio_parts/part_002.mp3";
      "audio_parts/part_003.mp3"].
Proof. vm_compute. reflexivity. Qed.
