(* ===== verification/Client.v ===== *)
(** * TranscriptionClient: [transcribe_audio]

    src/transcribe.py lines 70-85.  The file is opened, one multipart POST
    is sent with fixed form fields and a bearer header built from the
    configured key (the [config] module is out of scope: the key is a
    section variable), [raise_for_status] raises [HTTPError] for a status
    in [400, 600), and [response.json()["text"]] is returned: any JSON
    value, since nothing checks that it is a string. *)

From Stdlib Require Import Ascii String ZArith.
From stdpp Require Import base list gmap strings.
From S2P Require Import Prelude PyStr World Media.

(** [d[k]] on a dict decoded from a JSON object: the last binding of a
    repeated key wins, as in [json.loads]. *)
Fixpoint assoc_last (k : string) (kv : list (string * json)) : option json :=
  match kv with
  | [] => None
  | (k', v) :: kv' =>
      match assoc_last k kv' with
      | Some v' => Some v'
      | None => if String.eqb k k' then Some v else None
      end
  end.

(** [value["text"]] on the result of [response.json()]. *)
Definition getitem_text (j : json) : outcome exn json :=
  match j with
  | JObj kv => match assoc_last "text" kv with Some v => Ok v | None => Raise (KeyError "text") end
  | JArr _ => Raise (TypeError "list indices must be integers or slices, not str")
  | JStr _ => Raise (TypeError "string indices must be integers")
  | _ => Raise (TypeError "object is not subscriptable")
  end.

(** [Response.raise_for_status]: client errors (4xx) and server errors
    (5xx) raise; every other status passes. *)
Definition raise_for_status (rs : response) : outcome exn unit :=
  if bool_decide (400 <= rs_status rs < 600)%Z then Raise (HTTPError (rs_status rs)) else Ok ().

(** [response.json()]. *)
Definition response_json (rs : response) : outcome exn json :=
  match rs_json rs with Some j => Ok j | None => Raise JSONDecodeError end.

Definition API_URL : string := "https://api.openai.com/v1/audio/transcriptions".

(** Lines 74-80, form-encoded ([temperature] 0 is sent as ["0"]). *)
Definition whisper_form : list (string * string) :=
  [("model", "whisper-1"); ("language", "uk"); ("temperature", "0");
   ("prompt", ""); ("response_format", "json")].

Section Client.
Context `{Env}.
Variable OPENAI_API_KEY : string.

Definition whisper_request (file_path : string) (file : content) : request :=
  mk_request API_URL ("Bearer " +:+ OPENAI_API_KEY) file_path file whisper_form.

(** Lines 70-85. *)
Definition transcribe_audio (file_path : string) : Py json :=
  file ← open_read file_path;
  py_print (MsgSending file_path);;
  response ← requests_post (whisper_request file_path file);
  lift (raise_for_status response);;
  j ← lift (response_json response);
  lift (getitem_text j).

(** The world after the request for [file_path] has been printed and
    answered with [rs]. *)
Definition after_post (file_path : string) (c : content) (rs : response) (w : world) : world :=
  mk_world (w_fs w) (w_log w ++ [EPrint (MsgSending file_path);
                                 EPost (whisper_request file_path c) rs]).

(** C8. For an existing file whose upload is answered with a JSON object
    whose ["text"] is [t]: the call raises [HTTPError] exactly for a
    status in [400, 600) and returns [t] for every other status,
    redirections and informational statuses included, after printing one
    line and posting one request. *)
Theorem transcribe_audio_status file_path c rs t w :
  files (w_fs w) !! file_path = Some c ->
  env_post (whisper_request file_path c) = Some rs ->
  rs_json rs = Some (JObj [("text", JStr t)]) ->
  transcribe_audio file_path w =
  (if bool_decide (400 <= rs_status rs < 600)%Z then Raise (HTTPError (rs_status rs))
   else Ok (JStr t), after_post file_path c rs w).
Proof.
  intros Hc Hp Hj.
  unfold transcribe_audio, open_read, py_print, log, requests_post, lift,
    raise_for_status, response_json, after_post.
  se_unfold. rewrite Hc. cbn. rewrite Hp. cbn. rewrite <- app_assoc. cbn.
  case_bool_decide; [done|]. by rewrite Hj.
Qed.

(** The upload of [file_path] was answered with [rs], and [j] was
    extracted from it. *)
Definition answer_text (rs : response) (j : json) : Prop :=
  ~ (400 <= rs_status rs < 600)%Z /\
  exists jj, rs_json rs = Some jj /\ getitem_text jj = Ok j.

Lemma transcribe_audio_ok file_path w j w' :
  transcribe_audio file_path w = (Ok j, w') ->
  exists c rs, w' = after_post file_path c rs w /\ answer_text rs j.
Proof.
  unfold transcribe_audio, open_read, py_print, log, requests_post, lift,
    raise_for_status, response_json, after_post.
  se_unfold. destruct (files (w_fs w) !! file_path) as [c|]; cbn;
    [|case_bool_decide; discriminate].
  destruct (env_post _) as [rs|]; cbn; [|discriminate].
  case_bool_decide as Hs; [discriminate|].
  destruct (rs_json rs) as [jj|] eqn:Hj; [|discriminate].
  destruct (getitem_text jj) eqn:Hg; [|discriminate]. intros [= -> <-].
  exists c, rs. rewrite <- app_assoc. split; [done|]. split; [done|]. eauto.
Qed.

Lemma log_grows_transcribe (P : event -> Prop) file_path :
  (forall m, P (EPrint m)) -> (forall c rs, P (EPost (whisper_request file_path c) rs)) ->
  log_grows P (transcribe_audio file_path).
Proof.
  intros HP HQ. unfold transcribe_audio. grow.
Qed.

End Client.

(** The responses and the uploaded paths recorded in a log, in order. *)
Definition answers (L : list event) : list response :=
  omap (fun e => match e with EPost _ rs => Some rs | _ => None end) L.

Definition posted_paths (L : list event) : list string :=
  omap (fun e => match e with EPost rq _ => Some (rq_path rq) | _ => None end) L.

Lemma answers_app L1 L2 : answers (L1 ++ L2) = answers L1 ++ answers L2.
Proof. apply omap_app. Qed.

Lemma posted_paths_app L1 L2 : posted_paths (L1 ++ L2) = posted_paths L1 ++ posted_paths L2.
Proof. apply omap_app. Qed.

(** Events other than posts. *)
Definition not_post (e : event) : Prop := match e with EPost _ _ => False | _ => True end.

Lemma answers_not_post L : Forall not_post L -> answers L = [] /\ posted_paths L = [].
Proof. induction 1 as [|[] L HP _ [IH1 IH2]]; simpl in *; by rewrite ?IH1, ?IH2. Qed.

(** Transcribing a list of files in order posts them in that order, and
    the results are the texts of the answers, in that order. *)
Lemma transcribe_all_ok `{Env} key ps w js w' :
  runs_all (transcribe_audio key) ps w js w' ->
  exists L, w_log w' = w_log w ++ L /\ w_fs w' = w_fs w /\
    posted_paths L = ps /\ Forall2 answer_text (answers L) js.
Proof.
  induction 1 as [w|p ps j js w w1 w2 Hj Hr IH].
  - exists []. by rewrite app_nil_r.
  - destruct (transcribe_audio_ok _ _ _ _ _ Hj) as (c & rs & -> & Ha).
    destruct IH as (L & E & Efs & Ep & Ea).
    eexists. rewrite E. simpl. rewrite <- app_assoc. split; [done|]. split; [done|].
    rewrite posted_paths_app, answers_app. simpl. rewrite Ep. split; [done|].
    by constructor.
Qed.

(** A failing call posted nothing or only its own file. *)
Lemma transcribe_audio_raise `{Env} key p w e w' :
  transcribe_audio key p w = (Raise e, w') ->
  exists L, w_log w' = w_log w ++ L /\ (posted_paths L = [] \/ posted_paths L = [p]).
Proof.
  unfold transcribe_audio, open_read, py_print, log, requests_post, lift,
    raise_for_status, response_json.
  se_unfold. destruct (files (w_fs w) !! p) as [c|]; cbn.
  2:{ case_bool_decide; intros [= _ <-]; exists []; rewrite app_nil_r; auto. }
  destruct (env_post _) as [rs|]; cbn.
  2:{ intros [= _ <-]. eexists. split; [done|]. auto. }
  assert (Hpost : forall e', (Raise (A:=json) e', mk_world (w_fs w) ((w_log w ++ [EPrint (MsgSending p)]) ++
                     [EPost (whisper_request key p c) rs])) = (Raise e, w') ->
          exists L, w_log w' = w_log w ++ L /\ (posted_paths L = [] \/ posted_paths L = [p])).
  { intros e' [= _ <-]. eexists. rewrite <- app_assoc. split; [done|]. auto. }
  case_bool_decide; [apply Hpost|].
  destruct (rs_json rs) as [jj|]; [|apply Hpost].
  destruct (getitem_text jj); [discriminate|apply Hpost].
Qed.

(** ** Concrete runs *)

Definition one_file : world :=
  Media.world_with "audio/a.mp4" 1600 (mk_audio 0 100 []).

(** An endpoint that answers every upload with a redirection carrying a
    text. *)
Definition redirecting : Env :=
  Media.env_with (fun _ => Some (mk_response 302 (Some (JObj [("text", JStr "moved")])))).

(** C8 at status 302: the redirection is taken as a transcript. *)
Lemma transcribe_audio_status_witness :
  fst (@transcribe_audio redirecting "k" "audio/a.mp4" one_file) = Ok (JStr "moved").
Proof.
  rewrite (@transcribe_audio_status redirecting "k" "audio/a.mp4"
             (mk_content 1600 (Audio (mk_audio 0 100 [])))
             (mk_response 302 (Some (JObj [("text", JStr "moved")]))) "moved" one_file);
    [vm_compute; reflexivity | vm_compute; reflexivity | vm_compute; reflexivity
    | vm_compute; reflexivity].
Defined.
