(* ===== verification/Script.v ===== *)
(** * Pipeline driver: the module-level statements of src/transcribe.py

    Lines 87-109: trim the input, compare its size in MB with the limit,
    either split it and transcribe every part in order, joining the
    results with newlines, or transcribe it whole, then create [output/]
    and write the text to [output/lecture.txt].  The reassignment of the
    global [AUDIO_FILE] on line 88 is the bound variable [audio]. *)

From Stdlib Require Import Ascii String ZArith QArith.
From stdpp Require Import base list gmap strings.
From S2P Require Import Prelude PyStr SilenceDetect World Media Trim Split Client.

(** Lines 8-12 and 104. *)
Definition AUDIO_FILE : string := "audio/2025-03-08-audio.mp4".
Definition TRIMMED_AUDIO_FILE : string := "audio/trimmed_lecture.mp4".
Definition FILE_SIZE_LIMIT_MB : Z := 25.
Definition PARTS_FOLDER : string := "audio_parts".
Definition OUTPUT_DIR : string := "output".
Definition OUTPUT_FILE : string := "output/lecture.txt".

(** Line 91's test [size / (1024 * 1024) > 25].  The quotient is taken as
    an exact rational: Python's true division rounds it to the nearest
    double, which is exact below 2^53 bytes and monotone above, and the
    comparison of a float with the int 25 is exact, so the outcome of the
    test is the same. *)
Definition size_mb (size : Z) : Q := inject_Z size / inject_Z (1024 * 1024).

Definition over_limit (mb : Q) : bool := negb (Qle_bool mb (inject_Z FILE_SIZE_LIMIT_MB)).

(** The separator of line 98. *)
Definition NEWLINE : string := String (ascii_of_nat 10) EmptyString.

(** ["\n".join(transcriptions)]: every item must be a [str]. *)
Fixpoint as_strs (js : list json) : option (list string) :=
  match js with
  | [] => Some []
  | JStr s :: js' => (fun ss => s :: ss) <$> as_strs js'
  | _ :: _ => None
  end.

Definition join_json (sep : string) (js : list json) : outcome exn json :=
  match as_strs js with
  | Some ss => Ok (JStr (py_join sep ss))
  | None => Raise (TypeError "sequence item: expected str instance")
  end.

(** C9. Line 91 sends a file through the splitting branch exactly when
    it has more than 25 * 2^20 = 26214400 bytes: a file of exactly 25 MB
    is transcribed whole. *)
Theorem over_limit_size size :
  over_limit (size_mb size) = bool_decide (26214400 < size)%Z.
Proof.
  assert (Hq : (size_mb size <= inject_Z FILE_SIZE_LIMIT_MB)%Q <-> (size <= 26214400)%Z).
  { unfold size_mb, Qle, Qdiv, Qmult, Qinv, inject_Z, FILE_SIZE_LIMIT_MB. simpl. lia. }
  unfold over_limit. destruct (Qle_bool _ _) eqn:E; simpl.
  - apply Qle_bool_iff, Hq in E. rewrite bool_decide_false; [done|lia].
  - rewrite bool_decide_true; [done|]. destruct (Z.le_gt_cases size 26214400) as [Hl|]; [|lia].
    apply Hq, Qle_bool_iff in Hl. congruence.
Qed.

Lemma as_strs_spec js ss : as_strs js = Some ss <-> js = JStr <$> ss.
Proof.
  revert ss. induction js as [|j js IH]; intros ss.
  - destruct ss; simpl; split; congruence.
  - destruct j as [| | |s| |]; simpl; try (destruct ss; simpl; split; congruence).
    split.
    + intros H. destruct (as_strs js) as [l|] eqn:E; [|discriminate].
      injection H as <-. by rewrite (proj1 (IH l) eq_refl).
    + intros H. destruct ss as [|s' ss]; [discriminate|]. injection H as -> Hj.
      apply IH in Hj. by rewrite Hj.
Qed.

(** The files the script may upload, in order: the recording alone, the
    trimmed recording alone, or [.mp3] entries of the parts folder. *)
Definition units_ok (units : list string) : Prop :=
  units = [AUDIO_FILE] \/ units = [TRIMMED_AUDIO_FILE] \/
  Forall (fun p => exists f, p = path_join PARTS_FOLDER f /\ is_mp3 f = true) units.

Section Script.
Context `{Env}.
Variable OPENAI_API_KEY : string.

(** Lines 14-15. *)
Definition get_file_size (file_path : string) : Py Q :=
  size ← os_path_getsize file_path; mret (size_mb size).

(** Lines 87-101. *)
Definition produce_transcription : Py json :=
  audio ← trim_silence AUDIO_FILE TRIMMED_AUDIO_FILE;
  mb ← get_file_size audio;
  if over_limit mb then
    py_print MsgTooBig;;
    parts ← split_audio audio PARTS_FOLDER 300;
    transcriptions ← for_append (transcribe_audio OPENAI_API_KEY) parts [];
    lift (join_json NEWLINE transcriptions)
  else
    py_print MsgSmall;;
    transcribe_audio OPENAI_API_KEY audio.

(** Lines 103-109. *)
Definition save_transcription (full_transcription : json) : Py unit :=
  os_makedirs OUTPUT_DIR;;
  write_text_file OUTPUT_FILE full_transcription;;
  py_print (MsgDone OUTPUT_FILE).

Definition script : Py unit :=
  full_transcription ← produce_transcription;
  save_transcription full_transcription.

(** ** Helper lemmas *)

Lemma log_grows_produce_prefix (P : event -> Prop) :
  (forall cmd rc, P (ERun cmd rc)) -> (forall m, P (EPrint m)) ->
  log_grows P (trim_silence AUDIO_FILE TRIMMED_AUDIO_FILE ≫= get_file_size).
Proof. intros. apply log_grows_bind; [by apply log_grows_trim|]. unfold get_file_size. grow. Qed.

Lemma no_events_nil (L : list event) : Forall (fun _ => False) L -> L = [].
Proof. by intros [|? ? []]. Qed.

Lemma get_file_size_log p w r w' : get_file_size p w = (r, w') -> w_log w' = w_log w.
Proof.
  intros Hr. destruct (log_grows_bind (fun _ => False) _ _ (log_grows_getsize _ p)
                        (fun _ => log_grows_ret _ _) w r w' Hr) as (L & E & ->%no_events_nil).
  by rewrite E, app_nil_r.
Qed.

(** What a successful [produce_transcription] did: it appended [L] to the
    log, uploaded the files of [units_ok], the answers posted in [L]
    carried the values [js], and a [str] result is the newline join of
    those values. *)
Lemma produce_ok w full w' :
  produce_transcription w = (Ok full, w') ->
  exists L js, w_log w' = w_log w ++ L /\ units_ok (posted_paths L) /\
    Forall2 answer_text (answers L) js /\
    forall s, full = JStr s -> exists texts, js = JStr <$> texts /\ s = py_join NEWLINE texts.
Proof.
  unfold produce_transcription. intros H0.
  inv_ok H0 audio w1 Ht H1.
  destruct (log_grows_trim not_post AUDIO_FILE TRIMMED_AUDIO_FILE ltac:(done) ltac:(done)
              _ _ _ Ht) as (L1 & E1 & F1).
  inv_ok H1 mb w2 Hs H2. apply get_file_size_log in Hs.
  destruct (answers_not_post _ F1) as [A1 P1].
  destruct (over_limit mb).
  - inv_ok H2 u w3 Hp H3. rewrite print_run in Hp. injection Hp as _ <-.
    inv_ok H3 parts w4 Hsp H4.
    destruct (log_grows_split not_post _ _ _ ltac:(done) _ _ _ Hsp) as (L4 & E4 & F4).
    destruct (answers_not_post _ F4) as [A4 P4]. apply split_audio_ok in Hsp.
    inv_ok H4 ts w5 Hfa H5. rewrite for_append_mapM in Hfa.
    inv_ok Hfa ys w6 Hm Hr. injection Hr as <- <-.
    apply mapM_ok_iff, transcribe_all_ok in Hm as (L6 & E6 & _ & P6 & F6).
    unfold lift, join_json in H5. destruct (as_strs ys) as [texts|] eqn:Es; [|discriminate].
    injection H5 as <- <-.
    exists (L1 ++ [EPrint MsgTooBig] ++ L4 ++ L6), ys. split.
    + rewrite E6, E4, Hs, E1. simpl. by rewrite <- !app_assoc.
    + rewrite !posted_paths_app, !answers_app, A1, A4, P1, P4, P6. split; [by right; right|].
      split; [done|]. intros s [= <-]. exists texts. split; [by apply as_strs_spec|done].
  - inv_ok H2 u w3 Hp H3. rewrite print_run in Hp. injection Hp as _ <-.
    destruct (transcribe_audio_ok _ _ _ _ _ H3) as (c & rs & -> & Ha).
    exists (L1 ++ [EPrint MsgSmall] ++
            [EPrint (MsgSending audio); EPost (whisper_request OPENAI_API_KEY audio c) rs]), [full].
    split.
    + unfold after_post. simpl. rewrite Hs, E1, <- !app_assoc. done.
    + rewrite !posted_paths_app, !answers_app, A1, P1. simpl. split.
      { destruct (trim_silence_ok _ _ _ _ _ Ht) as [-> | ->]; [by left|by right; left]. }
      split; [by constructor; [|constructor]|].
      intros s ->. by exists [s].
Qed.

(** C1. When the script finishes without an exception, [output/lecture.txt]
    holds exactly the transcript texts of the answers it received, joined
    with newlines, in the order the requests were sent: one fragment per
    transcribed unit, none lost, none reordered; the units uploaded are
    the recording or the trimmed recording alone, or [.mp3] files of
    [audio_parts]. *)
Theorem script_success w w' :
  script w = (Ok (), w') ->
  exists L texts,
    w_log w' = w_log w ++ L /\ units_ok (posted_paths L) /\
    Forall2 (fun rs t => answer_text rs (JStr t)) (answers L) texts /\
    files (w_fs w') !! OUTPUT_FILE =
      Some (mk_content (utf8_size (py_join NEWLINE texts)) (Text (py_join NEWLINE texts))).
Proof.
  unfold script, save_transcription. intros H0.
  inv_ok H0 full w1 Hp H1. destruct (produce_ok _ _ _ Hp) as (L & js & E & U & Fa & Hs).
  inv_ok H1 u w2 Hm H2. apply makedirs_ok in Hm as ->.
  inv_ok H2 u' w3 Hw H3. apply write_ok in Hw as (s & -> & ->).
  rewrite print_run in H3. injection H3 as <-.
  destruct (Hs s eq_refl) as (texts & -> & ->).
  exists (L ++ [EOpenWrite OUTPUT_FILE; EPrint (MsgDone OUTPUT_FILE)]), texts.
  split; [|split; [|split]].
  - simpl. rewrite E, <- !app_assoc. done.
  - rewrite posted_paths_app. simpl. by rewrite app_nil_r.
  - rewrite answers_app. simpl. rewrite app_nil_r. apply (Forall2_fmap_r JStr answer_text (answers L) texts) in Fa. exact Fa.
  - simpl. apply lookup_insert_eq.
Qed.

(** Exceptions that come from the transcription service or from ffmpeg. *)
Definition upstream_error (e : exn) : Prop :=
  match e with
  | HTTPError _ | ConnectionError | JSONDecodeError | KeyError _ | CalledProcessError _ _ => True
  | _ => False
  end.

Lemma ancestors_output : ancestors OUTPUT_DIR = [OUTPUT_DIR].
Proof. reflexivity. Qed.

Lemma dirname_output : dirname OUTPUT_FILE = OUTPUT_DIR.
Proof. reflexivity. Qed.

(** C12. Lines 105-109 on every branch: a file named [output] makes
    [os.makedirs] raise [FileExistsError]; otherwise [output/] exists
    afterwards, a directory [output/lecture.txt] raises
    [IsADirectoryError], and the file is opened (and truncated) and
    either receives the text or, for a value that is not a [str], stays
    empty while [TypeError] is raised.  [FileNotFoundError] and
    [NotADirectoryError] cannot occur. *)
Theorem save_transcription_run full w :
  save_transcription full w =
  let F := w_fs w in
  if bool_decide (OUTPUT_DIR ∈ dom (files F)) then (Raise (FileExistsError OUTPUT_DIR), w)
  else
    let D := dirs F ∪ {[OUTPUT_DIR]} in
    if bool_decide (OUTPUT_FILE ∈ dirs F)
    then (Raise (IsADirectoryError OUTPUT_FILE), mk_world (mk_fs (files F) D) (w_log w))
    else
      let L := w_log w ++ [EOpenWrite OUTPUT_FILE] in
      match full with
      | JStr s =>
          (Ok (), mk_world (mk_fs (<[OUTPUT_FILE := mk_content (utf8_size s) (Text s)]> (files F)) D)
                           (L ++ [EPrint (MsgDone OUTPUT_FILE)]))
      | _ =>
          (Raise (TypeError "write() argument must be str"),
           mk_world (mk_fs (<[OUTPUT_FILE := mk_content 0 (Text "")]> (files F)) D) L)
      end.
Proof.
  unfold save_transcription, os_makedirs, makedirs_fs, write_text_file, py_print, log.
  se_unfold. rewrite ancestors_output, dirname_output. cbn -[OUTPUT_DIR OUTPUT_FILE].
  rewrite (right_id_L ∅ union).
  case_bool_decide as Hd; [done|]. cbn -[OUTPUT_DIR OUTPUT_FILE].
  rewrite bool_decide_false by (rewrite Exists_cons, Exists_nil; tauto).
  cbn -[OUTPUT_DIR OUTPUT_FILE].
  assert (Hne : OUTPUT_FILE <> OUTPUT_DIR) by done.
  rewrite (bool_decide_ext (OUTPUT_FILE ∈ _) (OUTPUT_FILE ∈ dirs (w_fs w))) by set_solver.
  case_bool_decide; [done|].
  rewrite bool_decide_false by set_solver.
  by destruct full.
Qed.

Lemma save_raise full w e w' :
  save_transcription full w = (Raise e, w') -> ~ upstream_error e.
Proof.
  unfold save_transcription, os_makedirs, write_text_file, py_print, log. se_unfold.
  repeat case_bool_decide; cbn; try (intros [= <- _]; cbn; tauto).
  destruct full; cbn; intros [= <- _]; cbn; tauto.
Qed.

Lemma log_grows_produce (P : event -> Prop) :
  (forall cmd rc, P (ERun cmd rc)) -> (forall m, P (EPrint m)) ->
  (forall p c rs, P (EPost (whisper_request OPENAI_API_KEY p c) rs)) ->
  log_grows P produce_transcription.
Proof.
  intros HR HP HQ. unfold produce_transcription.
  apply log_grows_bind; [by apply log_grows_trim|]. intros audio.
  apply log_grows_bind; [unfold get_file_size; grow|]. intros mb.
  apply log_grows_if; grow;
    try apply log_grows_split; try apply log_grows_for_append; intros;
    try apply log_grows_transcribe; try apply log_grows_lift; auto.
Qed.

(** C2. If the transcription service answers with an error status, the
    connection fails, the answer has no usable ["text"], or an ffmpeg
    command fails, the script stops before [output/lecture.txt] is ever
    opened for writing. *)
Theorem script_upstream_error_no_write w e w' :
  script w = (Raise e, w') -> upstream_error e ->
  exists L, w_log w' = w_log w ++ L /\ EOpenWrite OUTPUT_FILE ∉ L.
Proof.
  unfold script. intros H0 He.
  destruct (bind_inv _ _ _ _ _ H0) as [(full & w1 & H1 & H2) | (e' & H1 & [= <-])].
  - by apply save_raise in H2.
  - destruct (log_grows_produce (fun ev => ev <> EOpenWrite OUTPUT_FILE)
                ltac:(done) ltac:(done) ltac:(done) _ _ _ H1) as (L & E & F).
    exists L. split; [done|]. intros Hin. by eapply Forall_forall in F; [|exact Hin].
Qed.

(** A request of the client: sent to the transcription endpoint, with the
    bearer header of the configured key and the form of lines 74-80. *)
Definition api_request (e : event) : Prop :=
  match e with
  | EPost rq _ =>
      rq_url rq = API_URL /\ rq_auth rq = "Bearer " +:+ OPENAI_API_KEY /\ rq_form rq = whisper_form
  | _ => True
  end.

(** C11. Whatever the script does, finishing or raising, every request it
    sends goes to the transcription endpoint with the configured key as
    bearer token and the form of lines 74-80: the key is sent nowhere
    else. *)
Theorem script_requests_to_api w :
  exists L, w_log (snd (script w)) = w_log w ++ L /\ Forall api_request L.
Proof.
  assert (Hg : log_grows api_request script).
  { unfold script, save_transcription.
    apply log_grows_bind; [apply log_grows_produce; done|]. intros full.
    apply log_grows_bind; [apply log_grows_makedirs|]. intros _.
    apply log_grows_bind; [by apply log_grows_write|]. intros _. by apply log_grows_print. }
  destruct (script w) as [r w'] eqn:E. exact (Hg _ _ _ E).
Qed.

End Script.



(** ** Concrete runs (the environment of [Media.v]) *)

(** A 40 MB, 30-minute recording that starts with 3.504 s of silence. *)
Definition lecture : world :=
  Media.world_with AUDIO_FILE 41943040 (mk_audio 0 1800000 [(0, 3504)%Z]).

Definition lecture_run : outcome exn () * world := @script Media.env "sk-test" lecture.

(** C1 on the recording: trimmed to 28.7 MB, it is cut into six parts,
    whose transcripts are written one per line in order. *)
Lemma script_success_witness :
  exists L texts,
    w_log (snd lecture_run) = w_log lecture ++ L /\ units_ok (posted_paths L) /\
    Forall2 (fun rs t => answer_text rs (JStr t)) (answers L) texts /\
    files (w_fs (snd lecture_run)) !! OUTPUT_FILE =
      Some (mk_content (utf8_size (py_join NEWLINE texts)) (Text (py_join NEWLINE texts))).
Proof.
  apply (@script_success Media.env "sk-test" lecture (snd lecture_run)).
  vm_compute. reflexivity.
Defined.

Remark lecture_output :
  files (w_fs (snd lecture_run)) !! OUTPUT_FILE =
  Some (mk_content 119 (Text (py_join NEWLINE
    ["speech from 3.504"; "speech from 303.504"; "speech from 603.504";
     "speech from 903.504"; "speech from 1203.504"; "speech from 1503.504"]))).
Proof. vm_compute. reflexivity. Qed.

(** An endpoint that fails every request with status 500. *)
Definition failing : Env :=
  Media.env_with (fun _ => Some (mk_response 500 (Some (JObj [("error", JStr "server")])))).

Definition failing_run : outcome exn () * world := @script failing "sk-test" lecture.

(** C2 on the recording: the first upload fails and nothing is written. *)
Lemma script_upstream_error_no_write_witness :
  fst failing_run = Raise (HTTPError 500) /\
  exists L, w_log (snd failing_run) = w_log lecture ++ L /\ EOpenWrite OUTPUT_FILE ∉ L.
Proof.
  assert (H : @script failing "sk-test" lecture = (Raise (HTTPError 500), snd failing_run))
    by (vm_compute; reflexivity).
  split; [unfold failing_run; by rewrite H|].
  exact (@script_upstream_error_no_write failing "sk-test" lecture _ _ H I).
Defined.

(** Running the script a second time fails: the trimmed file of the first
    run exists and the re-encode command has no [-y], so ffmpeg refuses to
    overwrite it and [check=True] raises. *)
Remark script_rerun_fails :
  fst (@script Media.env "sk-test" (snd lecture_run)) =
  Raise (CalledProcessError 1 (trim_cmd AUDIO_FILE "3.504" TRIMMED_AUDIO_FILE)).
Proof. vm_compute. reflexivity. Qed.

(** A recording whose first silence lies after 12 s of speech. *)
Definition speech_first : world :=
  Media.world_with AUDIO_FILE 1000 (mk_audio 0 1200000 [(12000, 15500)%Z]).

(** The "leading" silence detected is the first one anywhere: the opening
    12 s of speech are cut and the transcript starts at 15.5 s. *)
Remark script_cuts_opening_speech :
  files (w_fs (snd (@script Media.env "k" speech_first))) !! OUTPUT_FILE =
  Some (mk_content 18 (Text "speech from 15.500")).
Proof. vm_compute. reflexivity. Qed.

(** An endpoint whose ["text"] is a number. *)
Definition numeric_text : Env :=
  Media.env_with (fun _ => Some (mk_response 200 (Some (JObj [("text", JNum 7)])))).

(** A small file whose transcript is not a string: [open(..., "w")] has
    already truncated [output/lecture.txt] when [write] raises. *)
Remark script_type_error_truncates :
  let r := @script numeric_text "k" speech_first in
  fst r = Raise (TypeError "write() argument must be str") /\
  files (w_fs (snd r)) !! OUTPUT_FILE = Some (mk_content 0 (Text "")).
Proof. vm_compute. split; reflexivity. Qed.
